(** * MicroContract: the contract-analysis pipeline

    A shallow embedding of [src/unnamed/part_002] (the contract analyzer
    service: [extractTextFromFile], [getGroqClient], [analyzeContract]) and of
    [handleFileUpload] in [src/src/App.tsx].

    Strings are Rocq strings of 8-bit characters, read as the code points
    U+0000..U+00FF of a JavaScript string.  The external collaborators (the
    Groq completion endpoint, [JSON.parse], the [FileReader] and the
    [mammoth] library, the build environment) are parameters of the Section
    [Pipeline]. *)

From Stdlib Require Import String Ascii List Bool Arith Lia ZArith.
From Stdlib Require Import Numbers.DecimalString Numbers.DecimalZ.
Import ListNotations.
Open Scope string_scope.
Set Warnings "-register-all".

(** ** String helpers *)

Definition newline : ascii := "010"%char.
Definition backtick : ascii := "`"%char.

(** The first [n] characters dropped. *)
Fixpoint drop (n : nat) (s : string) : string :=
  match n, s with
  | 0, _ => s
  | S n', String _ s' => drop n' s'
  | S _, EmptyString => EmptyString
  end.

(** Decimal rendering of a natural number, as a template literal
    [`${n}`] renders it. *)
Definition string_of_nat (n : nat) : string :=
  NilEmpty.string_of_uint (Nat.to_uint n).

(** The Rocq string syntax doubles a double quote; the prompt template below
    is written with [~] for each double quote and converted here. *)
Fixpoint dq (s : string) : string :=
  match s with
  | EmptyString => EmptyString
  | String c s' =>
      String (if Ascii.eqb c "~"%char then "034"%char else c) (dq s')
  end.

(** ** [String.prototype.trim]

    JavaScript white space and line terminators among U+0000..U+00FF:
    TAB, LF, VT, FF, CR, SPACE and NO-BREAK SPACE. *)
Definition is_js_space (c : ascii) : bool :=
  match nat_of_ascii c with
  | 9 | 10 | 11 | 12 | 13 | 32 | 160 => true
  | _ => false
  end.

Fixpoint trim_start (s : string) : string :=
  match s with
  | EmptyString => EmptyString
  | String c s' => if is_js_space c then trim_start s' else s
  end.

Fixpoint rev_string (s : string) : string :=
  match s with
  | EmptyString => EmptyString
  | String c s' => rev_string s' ++ String c EmptyString
  end.

Definition trim_end (s : string) : string :=
  rev_string (trim_start (rev_string s)).

Definition trim (s : string) : string := trim_end (trim_start s).

(** ** [response.replace(/```json\n?|\n?```/g, '')]

    A global replace scans left to right; at each position the first
    alternative [```json\n?] is tried before the second [\n?```], and each
    [\n?] is greedy.  After a match the scan resumes behind it; where nothing
    matches the character is kept.  The recursion is bounded by a fuel that
    [strip_fences] sets to the length of the input. *)
Definition fence_json_nl : string := String backtick (String backtick (String backtick ("json" ++ String newline EmptyString))).
Definition fence_json : string := String backtick (String backtick (String backtick "json")).
Definition fence_nl : string := String newline (String backtick (String backtick (String backtick EmptyString))).
Definition fence : string := String backtick (String backtick (String backtick EmptyString)).

Fixpoint strip_fuel (fuel : nat) (s : string) : string :=
  match fuel with
  | 0 => s
  | S f =>
      match s with
      | EmptyString => EmptyString
      | String c s' =>
          if prefix fence_json_nl s then strip_fuel f (drop 8 s)
          else if prefix fence_json s then strip_fuel f (drop 7 s)
          else if prefix fence_nl s then strip_fuel f (drop 4 s)
          else if prefix fence s then strip_fuel f (drop 3 s)
          else String c (strip_fuel f s')
      end
  end.

Definition strip_fences (s : string) : string := strip_fuel (String.length s) s.

(** [const cleanResponse = response.replace(...).trim()] *)
Definition clean_response (response : string) : string :=
  trim (strip_fences response).

(** A response wrapped in a fenced code block: the opening fence (with or
    without the [json] language tag) on its own line, then the payload, then
    the closing fence on its own line. *)
Definition wrap_json (j : string) : string :=
  fence_json_nl ++ j ++ fence_nl.
Definition wrap_plain (j : string) : string :=
  fence ++ String newline EmptyString ++ j ++ fence_nl.

(** ** The JSON stage of the response parser

    [JSON.parse] is the platform's; [parse_response] is the code's use of it
    on the cleaned response ([inl] carries the message of the [SyntaxError]
    it throws). *)
Inductive jsval : Type :=
| JUndefined
| JNull
| JBool (b : bool)
| JNum (n : Z)
| JStr (s : string)
| JArr (xs : list jsval)
| JObj (fields : list (string * jsval)).

Definition parse_response (JSON_parse : string -> string + jsval)
    (response : string) : string + jsval :=
  JSON_parse (clean_response response).

Definition starts_with_backtick (s : string) : bool :=
  match s with
  | String c _ => Ascii.eqb c backtick
  | EmptyString => false
  end.

(** ** JavaScript values as the code reads them *)

Fixpoint lookup (k : string) (fs : list (string * jsval)) : option jsval :=
  match fs with
  | [] => None
  | (k', v) :: fs' => if String.eqb k k' then Some v else lookup k fs'
  end.

(** Truthiness, as [!x] and [x || y] test it. *)
Definition truthy (v : jsval) : bool :=
  match v with
  | JUndefined | JNull => false
  | JBool b => b
  | JNum n => negb (Z.eqb n 0)
  | JStr s => negb (String.eqb s "")
  | JArr _ | JObj _ => true
  end.

(** Thrown values.  [Error], [SyntaxError] and [TypeError] are instances of
    [Error] and carry a message; [NonError] is any other thrown value. *)
Inductive exn : Type :=
| Error (message : string)
| SyntaxError (message : string)
| TypeError (message : string)
| NonError (v : jsval).

(** [error instanceof Error ? error.message : ...] *)
Definition error_message (e : exn) : option string :=
  match e with
  | Error m | SyntaxError m | TypeError m => Some m
  | NonError _ => None
  end.

(** Property access [v.k] for the property names the code reads ([risks],
    [overallScore], [totalClauses], [revisedSections]): a [TypeError] on
    [undefined] and [null], the own property of an object, and [undefined]
    for an absent key and for the other primitives and arrays, which have no
    such property. *)
Definition get_prop (v : jsval) (k : string) : exn + jsval :=
  match v with
  | JUndefined =>
      inl (TypeError ("Cannot read properties of undefined (reading '" ++ k ++ "')"))
  | JNull =>
      inl (TypeError ("Cannot read properties of null (reading '" ++ k ++ "')"))
  | JObj fs =>
      inr (match lookup k fs with Some x => x | None => JUndefined end)
  | _ => inr JUndefined
  end.

Fixpoint index_fields (i : nat) (xs : list jsval) : list (string * jsval) :=
  match xs with
  | [] => []
  | x :: xs' => (string_of_nat i, x) :: index_fields (S i) xs'
  end.

Fixpoint char_fields (i : nat) (s : string) : list (string * jsval) :=
  match s with
  | EmptyString => []
  | String c s' => (string_of_nat i, JStr (String c EmptyString)) :: char_fields (S i) s'
  end.

(** The own enumerable properties copied by an object spread [{...v}]:
    an object's fields, an array's and a string's indices, nothing for the
    other values. *)
Definition spread_fields (v : jsval) : list (string * jsval) :=
  match v with
  | JObj fs => fs
  | JArr xs => index_fields 0 xs
  | JStr s => char_fields 0 s
  | _ => []
  end.

(** A property definition in an object literal after a spread: it overwrites
    the key where it is, or adds it at the end. *)
Definition set_field (k : string) (v : jsval) (fs : list (string * jsval))
    : list (string * jsval) :=
  if existsb (fun '(k', _) => String.eqb k k') fs
  then map (fun '(k', v') => if String.eqb k k' then (k', v) else (k', v')) fs
  else fs ++ [(k, v)].

(** [(risk, index) => ({ ...risk, id: `risk-${index + 1}` })] *)
Definition risk_with_id (risk : jsval) (index : nat) : jsval :=
  JObj (set_field "id" (JStr ("risk-" ++ string_of_nat (index + 1)))
          (spread_fields risk)).

Fixpoint map_index_from (f : jsval -> nat -> jsval) (i : nat) (xs : list jsval)
    : list jsval :=
  match xs with
  | [] => []
  | x :: xs' => f x i :: map_index_from f (S i) xs'
  end.

(** [v.map(f)]: a [TypeError] unless [v] is an array (JSON values have no
    function-valued [map] property). *)
Definition js_map (f : jsval -> nat -> jsval) (v : jsval) : exn + list jsval :=
  match v with
  | JArr xs => inr (map_index_from f 0 xs)
  | JUndefined => inl (TypeError "Cannot read properties of undefined (reading 'map')")
  | JNull => inl (TypeError "Cannot read properties of null (reading 'map')")
  | _ => inl (TypeError "analysisData.risks.map is not a function")
  end.

(** ** The data model of [src/unnamed/part_002] *)

(** [AnalysisResult]; its fields hold whatever the parsed payload held. *)
Record AnalysisResult : Type := {
  risks : list jsval;
  overallScore : jsval;
  totalClauses : jsval;
  originalText : string;
  revisedSections : jsval
}.

(** The normalisation of lines 150-162 of [analyzeContract], from the parsed
    payload [analysisData] to the returned [AnalysisResult]. *)
Definition normalize_analysis (contractText : string) (analysisData : jsval)
    : exn + AnalysisResult :=
  match get_prop analysisData "risks" with
  | inl e => inl e
  | inr rs =>
  match js_map risk_with_id rs with
  | inl e => inl e
  | inr risksWithIds =>
  match get_prop analysisData "overallScore" with
  | inl e => inl e
  | inr os =>
  match get_prop analysisData "totalClauses" with
  | inl e => inl e
  | inr tc =>
  match get_prop analysisData "revisedSections" with
  | inl e => inl e
  | inr rv =>
      inr {| risks := risksWithIds;
             overallScore := os;
             totalClauses := tc;
             originalText := contractText;
             revisedSections := if truthy rv then rv else JArr [] |}
  end end end end end.

(** ** The prompt builder *)

Definition prompt_head : string := dq "
You are a legal expert analyzing a contract for potential risks. Analyze the following contract text and identify problematic clauses.

Contract Text:
".

Definition prompt_tail : string := dq "

Please analyze this contract and identify risks in the following categories:
1. Payment Terms (vague timelines, unclear amounts, no late fees)
2. Intellectual Property (unclear ownership, missing IP clauses)
3. Scope of Work (unlimited revisions, vague deliverables)
4. Termination (no notice period, unfair termination clauses)
5. Liability (unlimited liability, missing limitation clauses)
6. Non-compete (overly broad restrictions)
7. Confidentiality (missing or weak NDAs)

For each risk found, provide:
- Risk level (high/medium/low)
- Category
- Brief description
- Plain English explanation of why it's problematic
- Specific suggestion for improvement
- Location in contract (section/clause reference if available)
- Original problematic clause text (exact quote from contract)
- Suggested replacement clause text

Also provide:
- Overall risk score (0-100, where 100 is safest)
- Total number of clauses analyzed
- For the top 3-5 most important risks, provide revised sections showing original vs improved text

Format your response as a JSON object with this structure:
{
  ~risks~: [
    {
      ~type~: ~high|medium|low~,
      ~category~: ~category name~,
      ~description~: ~brief description~,
      ~explanation~: ~why this is problematic~,
      ~suggestion~: ~specific improvement suggestion~,
      ~location~: ~section reference~
      ~originalClause~: ~exact text from contract~,
      ~suggestedClause~: ~improved replacement text~
    }
  ],
  ~overallScore~: number,
  ~totalClauses~: number,
  ~revisedSections~: [
    {
      ~section~: ~section name/number~,
      ~original~: ~original problematic text~,
      ~revised~: ~improved text with changes highlighted~
    }
  ]
}

Only return the JSON object, no other text.
".


(** The template literal of [analyzeContract] with [contractText] in place. *)
Definition analysis_prompt (contractText : string) : string :=
  prompt_head ++ contractText ++ prompt_tail.

(** ** Effects: the application state, a log of observable events, errors

    The log records what a spy on the collaborators would see: a file's
    contents being read, a call of [analyzeContract] (the Analysis Client),
    and a request to the completion endpoint. *)
Inductive event : Type :=
| EvReadFile (fileName : string)
| EvAnalyze (contractText : string)
| EvRequest (prompt : string).

(** The browser [File]: its name, declared MIME type and contents. *)
Record File : Type := {
  name : string;
  type : string;
  bytes : list Byte.byte
}.

Inductive view : Type :=
| Landing | Upload | Analysis | Compare | Pricing | Success.

(** The React state that [handleFileUpload] writes ([uploadedAt], a clock
    reading, is left out). *)
Record AppState : Type := {
  currentView : view;
  uploadedFile : option File;
  uploadedFileName : string;
  isAnalyzing : bool;
  analysisError : option string;
  analysisResult : option AnalysisResult;
  originalContractText : string
}.

Record World : Type := {
  app : AppState;
  log : list event
}.

Definition M (A : Type) : Type := World -> (exn + A) * World.

Definition ret {A} (a : A) : M A := fun w => (inr a, w).
Definition bind {A B} (m : M A) (k : A -> M B) : M B :=
  fun w => match m w with
           | (inl e, w') => (inl e, w')
           | (inr a, w') => k a w'
           end.
Definition throw {A} (e : exn) : M A := fun w => (inl e, w).
Definition lift {A} (r : exn + A) : M A := fun w => (r, w).
Definition catch {A} (m : M A) (h : exn -> M A) : M A :=
  fun w => match m w with
           | (inl e, w') => h e w'
           | (inr a, w') => (inr a, w')
           end.
(** [try { m } finally { f }] *)
Definition try_finally {A} (m : M A) (f : M unit) : M A :=
  fun w => let '(r, w') := m w in
           match f w' with
           | (inl e, w'') => (inl e, w'')
           | (inr _, w'') => (r, w'')
           end.
Definition emit (ev : event) : M unit :=
  fun w => (inr tt, {| app := app w; log := log w ++ [ev] |}).
Definition modify_app (f : AppState -> AppState) : M unit :=
  fun w => (inr tt, {| app := f (app w); log := log w |}).

Notation "x <- m ;; k" := (bind m (fun x => k))
  (at level 61, m at next level, right associativity).
Notation "m ;; k" := (bind m (fun _ => k))
  (at level 61, right associativity).

(** The state setters of [App]. *)
Definition setCurrentView (v : view) (s : AppState) : AppState :=
  {| currentView := v; uploadedFile := uploadedFile s;
     uploadedFileName := uploadedFileName s; isAnalyzing := isAnalyzing s;
     analysisError := analysisError s; analysisResult := analysisResult s;
     originalContractText := originalContractText s |}.
Definition setUploadedFile (f : option File) (s : AppState) : AppState :=
  {| currentView := currentView s; uploadedFile := f;
     uploadedFileName := uploadedFileName s; isAnalyzing := isAnalyzing s;
     analysisError := analysisError s; analysisResult := analysisResult s;
     originalContractText := originalContractText s |}.
Definition setUploadedFileName (n : string) (s : AppState) : AppState :=
  {| currentView := currentView s; uploadedFile := uploadedFile s;
     uploadedFileName := n; isAnalyzing := isAnalyzing s;
     analysisError := analysisError s; analysisResult := analysisResult s;
     originalContractText := originalContractText s |}.
Definition setIsAnalyzing (b : bool) (s : AppState) : AppState :=
  {| currentView := currentView s; uploadedFile := uploadedFile s;
     uploadedFileName := uploadedFileName s; isAnalyzing := b;
     analysisError := analysisError s; analysisResult := analysisResult s;
     originalContractText := originalContractText s |}.
Definition setAnalysisError (e : option string) (s : AppState) : AppState :=
  {| currentView := currentView s; uploadedFile := uploadedFile s;
     uploadedFileName := uploadedFileName s; isAnalyzing := isAnalyzing s;
     analysisError := e; analysisResult := analysisResult s;
     originalContractText := originalContractText s |}.
Definition setAnalysisResult (r : option AnalysisResult) (s : AppState) : AppState :=
  {| currentView := currentView s; uploadedFile := uploadedFile s;
     uploadedFileName := uploadedFileName s; isAnalyzing := isAnalyzing s;
     analysisError := analysisError s; analysisResult := r;
     originalContractText := originalContractText s |}.
Definition setOriginalContractText (t : string) (s : AppState) : AppState :=
  {| currentView := currentView s; uploadedFile := uploadedFile s;
     uploadedFileName := uploadedFileName s; isAnalyzing := isAnalyzing s;
     analysisError := analysisError s; analysisResult := analysisResult s;
     originalContractText := t |}.

(** ** The platform the code runs on

    [VITE_GROQ_API_KEY] is [import.meta.env.VITE_GROQ_API_KEY];
    [groq_chat_completions_create] sends one request with the prompt and
    gives [completion.choices[0]?.message?.content] or the error the SDK
    throws; [JSON_parse] is [JSON.parse] ([inl] the [SyntaxError] message);
    [FileReader_readAsText] reads a text file ([None] fires [onerror]);
    [mammoth_extractRawText] loads [mammoth], reads the array buffer and
    extracts the raw text ([None] when any of these throws). *)
Record Platform : Type := {
  VITE_GROQ_API_KEY : option string;
  groq_chat_completions_create : string -> exn + option string;
  JSON_parse : string -> string + jsval;
  FileReader_readAsText : list Byte.byte -> option string;
  mammoth_extractRawText : list Byte.byte -> option string
}.

Definition missing_key_message : string :=
  "Groq API key not found. Please add VITE_GROQ_API_KEY to your .env file.".
Definition no_response_message : string := "No response from AI analysis".
Definition unexpected_message : string :=
  "An unexpected error occurred during analysis".
Definition pdf_message : string :=
  "PDF files are not yet supported. Please convert your contract to a DOCX file or copy/paste the text into a new Word document and upload that instead.".
Definition docx_message : string :=
  "Error reading DOCX file. Please ensure the file is not corrupted.".
Definition text_read_message : string := "Error reading text file".
Definition unsupported_message : string :=
  "Unsupported file type. Please upload a DOCX or TXT file.".
Definition insufficient_text_message : string :=
  "Unable to extract sufficient text from the file. Please ensure the file contains readable contract text.".
Definition generic_analysis_message : string :=
  "An error occurred during analysis".

Definition docx_mime : string :=
  "application/vnd.openxmlformats-officedocument.wordprocessingml.document".

Section Pipeline.
Variable P : Platform.

(** [getGroqClient]: the client stands for the key it is built with. *)
Definition getGroqClient : M string :=
  match VITE_GROQ_API_KEY P with
  | Some apiKey => if String.eqb apiKey "" then throw (Error missing_key_message)
                   else ret apiKey
  | None => throw (Error missing_key_message)
  end.

(** [analyzeContract]; its first step records the call. *)
Definition analyzeContract (contractText : string) : M AnalysisResult :=
  emit (EvAnalyze contractText) ;;
  let prompt := analysis_prompt contractText in
  catch
    (_ <- getGroqClient ;;
     emit (EvRequest prompt) ;;
     content <- lift (groq_chat_completions_create P prompt) ;;
     response <- (match content with
                  | Some r => if String.eqb r "" then throw (Error no_response_message)
                              else ret r
                  | None => throw (Error no_response_message)
                  end) ;;
     analysisData <- (match parse_response (JSON_parse P) response with
                      | inl msg => throw (SyntaxError msg)
                      | inr v => ret v
                      end) ;;
     lift (normalize_analysis contractText analysisData))
    (fun error =>
       match error with
       | NonError _ => throw (Error unexpected_message)
       | _ => throw error
       end).

(** [extractTextFromFile]: dispatch on [file.type]. *)
Definition extractTextFromFile (file : File) : M string :=
  if String.eqb (type file) "application/pdf" then throw (Error pdf_message)
  else if String.eqb (type file) docx_mime then
    catch (emit (EvReadFile (name file)) ;;
           match mammoth_extractRawText P (bytes file) with
           | Some value => ret value
           | None => throw (Error "mammoth.extractRawText failed")
           end)
          (fun _ => throw (Error docx_message))
  else if String.eqb (type file) "text/plain" then
    emit (EvReadFile (name file)) ;;
    match FileReader_readAsText P (bytes file) with
    | Some result => ret result
    | None => throw (Error text_read_message)
    end
  else throw (Error unsupported_message).

(** The state updates at the start of [handleFileUpload]. *)
Definition upload_start (file : File) : M unit :=
  modify_app (setUploadedFile (Some file)) ;;
  modify_app (setUploadedFileName (name file)) ;;
  modify_app (setCurrentView Analysis) ;;
  modify_app (setIsAnalyzing true) ;;
  modify_app (setAnalysisError None).

(** The minimum-length guard: [!contractText || contractText.trim().length < 100]. *)
Definition insufficient_text (contractText : string) : bool :=
  String.eqb contractText "" || Nat.ltb (String.length (trim contractText)) 100.

(** The [try] block of [handleFileUpload]. *)
Definition upload_try (file : File) : M unit :=
  contractText <- extractTextFromFile file ;;
  modify_app (setOriginalContractText contractText) ;;
  (if insufficient_text contractText
   then throw (Error insufficient_text_message) else ret tt) ;;
  result <- analyzeContract contractText ;;
  modify_app (setAnalysisResult (Some result)).

(** The [catch] block of [handleFileUpload]. *)
Definition upload_catch (error : exn) : M unit :=
  modify_app (setAnalysisError
    (Some (match error_message error with
           | Some m => m
           | None => generic_analysis_message
           end))) ;;
  modify_app (setAnalysisResult None).

(** [handleFileUpload] of [App]. *)
Definition handleFileUpload (file : File) : M unit :=
  upload_start file ;;
  try_finally (catch (upload_try file) upload_catch)
              (modify_app (setIsAnalyzing false)).

End Pipeline.

(** ** Concrete inputs for the examples

    A [JSON.parse] that knows the payloads of the examples, and a platform
    whose completion endpoint answers every prompt with [reply]. *)
Definition sample_JSON_parse (s : string) : string + jsval :=
  if starts_with_backtick s then inl "Unexpected token '`'"
  else if string_dec s "{}" then inr (JObj [])
  else if string_dec s (dq "{~risks~: [], ~overallScore~: 70}") then
    inr (JObj [("risks", JArr []); ("overallScore", JNum 70)])
  else inl "Unexpected token".

Definition latin1 (bs : list Byte.byte) : string :=
  string_of_list_ascii (map ascii_of_byte bs).

Definition sample_platform (key : option string) (reply : option string) : Platform :=
  {| VITE_GROQ_API_KEY := key;
     groq_chat_completions_create := fun _ => inr reply;
     JSON_parse := sample_JSON_parse;
     FileReader_readAsText := fun bs => Some (latin1 bs);
     mammoth_extractRawText := fun _ => None |}.

Definition initial_state : AppState :=
  {| currentView := Landing; uploadedFile := None; uploadedFileName := "";
     isAnalyzing := false; analysisError := None; analysisResult := None;
     originalContractText := "" |}.

Definition initial_world : World := {| app := initial_state; log := [] |}.

Fixpoint repeat_char (n : nat) (c : ascii) : string :=
  match n with
  | 0 => EmptyString
  | S n' => String c (repeat_char n' c)
  end.

Definition text_file (fileName : string) (contents : string) : File :=
  {| name := fileName; type := "text/plain";
     bytes := map byte_of_ascii (list_ascii_of_string contents) |}.

Definition sample_risk : jsval :=
  JObj [("type", JStr "critical"); ("category", JStr "Payment Terms");
        ("id", JStr "ai-7")].

Definition sample_reply : string :=
  fence_json_nl ++ dq "{~risks~: [], ~overallScore~: 70}" ++ fence_nl.

Definition short_file : File := text_file "short.txt" "Payment due within 30 days.".

Definition long_contract : string :=
  "Payment due within 30 days of invoice with no late fee specified. " ++
  "Payment due within 30 days of invoice with no late fee specified.".

Definition long_file : File := text_file "contract.txt" long_contract.

(** A reply with a trailing comma. *)
Definition malformed_reply : string := dq "{~risks~: [],}".

(** Exactly 100 characters after trimming: the text goes to analysis. *)
Definition file_100 : File := text_file "a.txt" (repeat_char 100 "a"%char).
(** 101 raw characters, 99 after trimming: the pipeline aborts. *)
Definition file_99 : File :=
  text_file "b.txt" (" " ++ repeat_char 99 "a"%char ++ " ").

(** ** [src/src/stripe-config.ts] *)

Module StripeConfig.

Inductive checkout_mode : Type := payment | subscription.
Inductive billing_interval : Type := month | year.

(** [StripeProduct]; prices are the integer amounts the catalogue holds. *)
Record StripeProduct : Type := {
  id : string;
  name : string;
  description : string;
  priceId : string;
  price : Z;
  mode : checkout_mode;
  interval : option billing_interval;
  popular : option bool;
  features : list string
}.

Definition stripeProducts : list StripeProduct :=
  [ {| id := "prod_Sdz8PGwuqtqf8P";
       name := "Pay Per Check";
       description := "Comprehensive risk analysis Detailed explanations Revision suggestions Export functionality Side-by-side comparison Priority processing";
       priceId := "price_1RihAMH9UjiUVq1X9N2VniYs";
       price := 25;
       mode := payment;
       interval := None;
       popular := Some true;
       features := ["Comprehensive risk analysis"; "Detailed explanations";
                    "Revision suggestions"; "Export functionality";
                    "Side-by-side comparison"; "Priority processing"] |};
    {| id := "prod_Sdz9MO674hKLsu";
       name := "Pro";
       description := "";
       priceId := "price_1RihBPH9UjiUVq1X9YN1izl7";
       price := 39;
       mode := subscription;
       interval := Some month;
       popular := None;
       features := ["Unlimited contract analysis"; "Priority support";
                    "Contract templates"; "Advanced analytics";
                    "Bulk processing"; "API access"; "Custom integrations"] |} ].

(** [`${price}`] for an integer [price]: [Number.prototype.toString] writes
    integers below 10^21 in plain decimal, with a minus sign when negative. *)
Definition number_to_string (n : Z) : string :=
  NilZero.string_of_int (Z.to_int n).

Definition formatPrice (price : Z) (mode : checkout_mode)
    (interval : option billing_interval) : string :=
  if Z.eqb price 0 then "Free"
  else
    let formattedPrice := "$" ++ number_to_string price in
    match mode, interval with
    | subscription, Some i =>
        formattedPrice ++ "/" ++ (match i with month => "mo" | year => "yr" end)
    | _, _ => formattedPrice
    end.

End StripeConfig.

(** [stripeProducts.find(p => p.id === productId)] *)
Definition find_product_by_id (productId : string) : option StripeConfig.StripeProduct :=
  find (fun p => String.eqb (StripeConfig.id p) productId) StripeConfig.stripeProducts.

(** ** [handleProductSelection] of [App] *)

Inductive auth_mode : Type := signin | signup.

(** The [authModal] state [{ isOpen, mode }]. *)
Record AuthModalState : Type := {
  isOpen : bool;
  authMode : auth_mode
}.

Record AuthUser : Type := {
  auth_id : string;
  auth_email : string
}.

(** The arguments of one [createCheckoutSession] call. *)
Record CheckoutRequest : Type := {
  checkout_priceId : string;
  checkout_mode : StripeConfig.checkout_mode;
  checkout_successUrl : string;
  checkout_cancelUrl : string
}.

(** The pricing page's state, with what a spy sees: the page the browser
    was sent to ([window.location.href]), the alerts shown and the checkout
    sessions requested. *)
Record PricingState : Type := {
  authModal : AuthModalState;
  selectedProduct : option string;
  isProcessingPayment : bool;
  location_href : option string;
  alerts : list string;
  checkouts : list CheckoutRequest
}.

Definition setAuthModal (m : AuthModalState) (s : PricingState) : PricingState :=
  {| authModal := m; selectedProduct := selectedProduct s;
     isProcessingPayment := isProcessingPayment s; location_href := location_href s;
     alerts := alerts s; checkouts := checkouts s |}.
Definition setSelectedProduct (p : option string) (s : PricingState) : PricingState :=
  {| authModal := authModal s; selectedProduct := p;
     isProcessingPayment := isProcessingPayment s; location_href := location_href s;
     alerts := alerts s; checkouts := checkouts s |}.
Definition setIsProcessingPayment (b : bool) (s : PricingState) : PricingState :=
  {| authModal := authModal s; selectedProduct := selectedProduct s;
     isProcessingPayment := b; location_href := location_href s;
     alerts := alerts s; checkouts := checkouts s |}.
Definition set_location_href (url : string) (s : PricingState) : PricingState :=
  {| authModal := authModal s; selectedProduct := selectedProduct s;
     isProcessingPayment := isProcessingPayment s; location_href := Some url;
     alerts := alerts s; checkouts := checkouts s |}.
Definition show_alert (msg : string) (s : PricingState) : PricingState :=
  {| authModal := authModal s; selectedProduct := selectedProduct s;
     isProcessingPayment := isProcessingPayment s; location_href := location_href s;
     alerts := (alerts s ++ [msg])%list; checkouts := checkouts s |}.
Definition record_checkout (r : CheckoutRequest) (s : PricingState) : PricingState :=
  {| authModal := authModal s; selectedProduct := selectedProduct s;
     isProcessingPayment := isProcessingPayment s; location_href := location_href s;
     alerts := alerts s; checkouts := (checkouts s ++ [r])%list |}.

Definition payment_failed_message : string :=
  "Payment processing failed. Please try again.".

Definition success_url (origin productId : string) : string :=
  origin ++ "?view=success&plan=" ++ productId.
Definition cancel_url (origin : string) : string :=
  origin ++ "?view=pricing".

Section Pricing.
(** [createCheckoutSession] gives the [url] of the session it creates
    ([None] for a missing one) or the error it throws; [user] is [useAuth]'s
    user and [origin] is [window.location.origin]. *)
Variable createCheckoutSession : CheckoutRequest -> exn + option string.
Variable user : option AuthUser.
Variable origin : string.

Definition handleProductSelection (productId : string) (s : PricingState)
    : PricingState :=
  match find_product_by_id productId with
  | None => s
  | Some product =>
      match user with
      | None => setAuthModal {| isOpen := true; authMode := signin |} s
      | Some _ =>
          let s1 := setIsProcessingPayment true (setSelectedProduct (Some productId) s) in
          let req := {| checkout_priceId := StripeConfig.priceId product;
                        checkout_mode := StripeConfig.mode product;
                        checkout_successUrl := success_url origin productId;
                        checkout_cancelUrl := cancel_url origin |} in
          let s2 := record_checkout req s1 in
          let s3 := match createCheckoutSession req with
                    | inr (Some url) => if String.eqb url "" then s2
                                        else set_location_href url s2
                    | inr None => s2
                    | inl _ => show_alert payment_failed_message s2
                    end in
          setSelectedProduct None (setIsProcessingPayment false s3)
      end
  end.

End Pricing.

(** ** [URLSearchParams] on [window.location.search]

    The application/x-www-form-urlencoded parser: the sequences between
    [&], empty ones skipped, each split at its first [=]; in names and
    values [+] becomes a space and [%XX] is percent-decoded.  Characters are
    the bytes of the query (the UTF-8 decoding of the decoded bytes is left
    out: it is the identity on ASCII). *)
Fixpoint split_on (sep : ascii) (s : string) : list string :=
  match s with
  | EmptyString => [EmptyString]
  | String c s' =>
      if Ascii.eqb c sep then EmptyString :: split_on sep s'
      else match split_on sep s' with
           | x :: xs => String c x :: xs
           | [] => [String c EmptyString]
           end
  end.

Fixpoint split_first (sep : ascii) (s : string) : string * option string :=
  match s with
  | EmptyString => (EmptyString, None)
  | String c s' =>
      if Ascii.eqb c sep then (EmptyString, Some s')
      else let '(a, b) := split_first sep s' in (String c a, b)
  end.

Fixpoint string_map (f : ascii -> ascii) (s : string) : string :=
  match s with
  | EmptyString => EmptyString
  | String c s' => String (f c) (string_map f s')
  end.

Fixpoint string_forallb (f : ascii -> bool) (s : string) : bool :=
  match s with
  | EmptyString => true
  | String c s' => f c && string_forallb f s'
  end.

Definition hex_value (c : ascii) : option nat :=
  let n := nat_of_ascii c in
  if (Nat.leb 48 n) && (Nat.leb n 57) then Some (n - 48)
  else if (Nat.leb 65 n) && (Nat.leb n 70) then Some (n - 55)
  else if (Nat.leb 97 n) && (Nat.leb n 102) then Some (n - 87)
  else None.

Fixpoint percent_decode (s : string) : string :=
  match s with
  | EmptyString => EmptyString
  | String c rest =>
      if Ascii.eqb c "%"%char then
        match rest with
        | String h (String l rest') =>
            match hex_value h, hex_value l with
            | Some a, Some b => String (ascii_of_nat (16 * a + b)) (percent_decode rest')
            | _, _ => String c (percent_decode rest)
            end
        | _ => String c (percent_decode rest)
        end
      else String c (percent_decode rest)
  end.

Definition form_decode (s : string) : string :=
  percent_decode (string_map (fun c => if Ascii.eqb c "+"%char then " "%char else c) s).

Definition urlencoded_parse (input : string) : list (string * string) :=
  flat_map (fun sequence =>
              if String.eqb sequence "" then []
              else let '(n, v) := split_first "="%char sequence in
                   [(form_decode n,
                     form_decode (match v with Some v' => v' | None => "" end))])
           (split_on "&"%char input).

(** [new URLSearchParams(search)]: a leading [?] is dropped. *)
Definition URLSearchParams (search : string) : list (string * string) :=
  urlencoded_parse (match search with
                    | String c rest => if Ascii.eqb c "?"%char then rest else search
                    | EmptyString => EmptyString
                    end).

(** [params.get(k)]: the value of the first pair named [k], or [null]. *)
Fixpoint params_get (params : list (string * string)) (k : string) : option string :=
  match params with
  | [] => None
  | (n, v) :: params' => if String.eqb n k then Some v else params_get params' k
  end.

(** The effect of [App] that reads [view] from the URL. *)
Definition app_url_view_effect (search : string) (currentView : view) : view :=
  match params_get (URLSearchParams search) "view" with
  | Some v => if String.eqb v "success" then Success else currentView
  | None => currentView
  end.

(** The effect of [SuccessPage] that names the purchased plan:
    [setPurchasedProduct(product?.name || 'Unknown Plan')] when [plan] is
    non-empty, nothing otherwise. *)
Definition successPage_purchasedProduct (search : string)
    (purchasedProduct : option string) : option string :=
  match params_get (URLSearchParams search) "plan" with
  | Some planId =>
      if String.eqb planId "" then purchasedProduct
      else Some (match find_product_by_id planId with
                 | Some product =>
                     if String.eqb (StripeConfig.name product) "" then "Unknown Plan"
                     else StripeConfig.name product
                 | None => "Unknown Plan"
                 end)
  | None => purchasedProduct
  end.

(** No character that the query parser treats specially: [&], [+], [%]. *)
Definition url_plain (s : string) : bool :=
  string_forallb (fun c => negb (Ascii.eqb c "&"%char || Ascii.eqb c "+"%char
                                 || Ascii.eqb c "%"%char)) s.

(** ** The exports of [App] *)

(** [/[a-zA-Z0-9]/] *)
Definition is_ascii_alnum (c : ascii) : bool :=
  let n := nat_of_ascii c in
  ((Nat.leb 48 n) && (Nat.leb n 57)) || ((Nat.leb 65 n) && (Nat.leb n 90)) || ((Nat.leb 97 n) && (Nat.leb n 122)).

(** [uploadedFileName.replace(/[^a-zA-Z0-9]/g, '_')] *)
Fixpoint safe_file_name (s : string) : string :=
  match s with
  | EmptyString => EmptyString
  | String c s' => String (if is_ascii_alnum c then c else "_"%char) (safe_file_name s')
  end.

(** A [downloadTextFile(content, filename)] call. *)
Record Download : Type := {
  download_content : string;
  download_filename : string
}.

Section Exports.
(** The report builders of the export service, given the file name, the
    result and the original text; [isoNow] is [new Date().toISOString()]. *)
Variable generateAnalysisReport : string -> AnalysisResult -> string -> string.
Variable generateRevisedContract : string -> AnalysisResult -> string -> string.
Variable isoNow : string.

(** [new Date().toISOString().split('T')[0]] *)
Definition export_timestamp : string :=
  match split_on "T"%char isoNow with
  | t :: _ => t
  | [] => ""
  end.

(** [handleExportReport]: the downloads it starts. *)
Definition handleExportReport (s : AppState) : list Download :=
  match analysisResult s with
  | None => []
  | Some r =>
      [{| download_content :=
            generateAnalysisReport (uploadedFileName s) r (originalContractText s);
          download_filename :=
            "ContractGuard_Analysis_" ++ safe_file_name (uploadedFileName s) ++ "_"
              ++ export_timestamp ++ ".txt" |}]
  end.

(** [handleExportRevised] *)
Definition handleExportRevised (s : AppState) : list Download :=
  match analysisResult s with
  | None => []
  | Some r =>
      if String.eqb (originalContractText s) "" then []
      else
        [{| download_content :=
              generateRevisedContract (originalContractText s) r (uploadedFileName s);
            download_filename :=
              "ContractGuard_Revised_" ++ safe_file_name (uploadedFileName s) ++ "_"
                ++ export_timestamp ++ ".txt" |}]
  end.

End Exports.

(** ** The risk summary of the analysis page *)

(** [v === t] for a string [t]. *)
Definition js_strict_eq_str (v : jsval) (t : string) : bool :=
  match v with
  | JStr s => String.eqb s t
  | _ => false
  end.

(** [risks.filter(r => r.type === t).length] *)
Fixpoint count_risk_type (t : string) (rs : list jsval) : exn + nat :=
  match rs with
  | [] => inr 0
  | r :: rs' =>
      match get_prop r "type" with
      | inl e => inl e
      | inr v =>
          match count_risk_type t rs' with
          | inl e => inl e
          | inr n => inr (if js_strict_eq_str v t then S n else n)
          end
      end
  end.

(** [getRiskColor]: [None] is the [undefined] of a [switch] without a match. *)
Definition getRiskColor (type : jsval) : option string :=
  if js_strict_eq_str type "high" then Some "bg-red-100 text-red-800 border-red-200"
  else if js_strict_eq_str type "medium" then Some "bg-yellow-100 text-yellow-800 border-yellow-200"
  else if js_strict_eq_str type "low" then Some "bg-green-100 text-green-800 border-green-200"
  else None.

(** [getRiskColor(risk.type)] in a risk's badge. *)
Definition risk_badge_color (risk : jsval) : exn + option string :=
  match get_prop risk "type" with
  | inl e => inl e
  | inr v => inr (getRiskColor v)
  end.

(** The [type] an entry of the payload carries into its risk. *)
Definition entry_type (entry : jsval) : jsval :=
  match lookup "type" (spread_fields entry) with
  | Some v => v
  | None => JUndefined
  end.

(** ** [useSubscription] and [getActiveSubscription] *)

Section Subscription.
Variable UserSubscription UserOrder : Type.
(** [subscription.price_id] ([None] for [null]). *)
Variable price_id : UserSubscription -> option string.

Record SubscriptionState : Type := {
  subscription : option UserSubscription;
  orders : list UserOrder;
  loading : bool
}.

(** One run of the effect of [useSubscription] for [user], with the
    outcomes of [getUserSubscription()] and [getUserOrders()]. *)
Definition useSubscription_effect (user : option AuthUser)
    (getUserSubscription : exn + option UserSubscription)
    (getUserOrders : exn + list UserOrder)
    (s : SubscriptionState) : SubscriptionState :=
  match user with
  | None => {| subscription := None; orders := []; loading := loading s |}
  | Some _ =>
      match getUserSubscription, getUserOrders with
      | inr subscriptionData, inr ordersData =>
          {| subscription := subscriptionData; orders := ordersData; loading := false |}
      | _, _ =>
          {| subscription := subscription s; orders := orders s; loading := false |}
      end
  end.

Definition getActiveSubscription (subscription : option UserSubscription)
    : option StripeConfig.StripeProduct :=
  match subscription with
  | None => None
  | Some sub =>
      find (fun p => match price_id sub with
                     | Some pid => String.eqb (StripeConfig.priceId p) pid
                     | None => false
                     end) StripeConfig.stripeProducts
  end.

End Subscription.

Arguments subscription {UserSubscription UserOrder}.
Arguments orders {UserSubscription UserOrder}.
Arguments loading {UserSubscription UserOrder}.

(** ** Inputs for the examples of this part *)

Definition sample_user : AuthUser := {| auth_id := "user-1"; auth_email := "a@example.com" |}.

Definition initial_pricing : PricingState :=
  {| authModal := {| isOpen := false; authMode := signin |};
     selectedProduct := None; isProcessingPayment := false;
     location_href := None; alerts := []; checkouts := [] |}.

Definition sample_checkout (r : CheckoutRequest) : exn + option string :=
  inr (Some "https://checkout.stripe.com/c/pay/cs_test").

Definition pdf_file : File :=
  {| name := "contract.pdf"; type := "application/pdf"; bytes := [] |}.

(** ** Lemmas on prefixes, drops and the fence stripping *)

Lemma prefix_length (p s : string) :
  prefix p s = true -> String.length p <= String.length s.
Proof.
  revert s; induction p as [|c p IH]; intros s H; simpl; [lia|].
  destruct s as [|d s]; simpl in H; [discriminate|].
  destruct (ascii_dec c d); [simpl; apply IH in H; lia|discriminate].
Qed.

Lemma prefix_app_long (p j t : string) :
  String.length p <= String.length j -> prefix p (j ++ t) = prefix p j.
Proof.
  revert j; induction p as [|c p IH]; intros j H; [destruct j, t; reflexivity|].
  destruct j as [|d j]; simpl in *; [lia|].
  destruct (ascii_dec c d); [apply IH; lia|reflexivity].
Qed.

Lemma prefix_app_short (p j t : string) :
  String.length j < String.length p ->
  prefix p (j ++ t) = andb (prefix j p) (prefix (drop (String.length j) p) t).
Proof.
  revert p; induction j as [|c j IH]; intros p H.
  - destruct p, t; reflexivity.
  - destruct p as [|d p]; simpl in *; [lia|].
    destruct (ascii_dec d c) as [->|Hn].
    + destruct (ascii_dec c c) as [_|Hc]; [apply IH; lia|congruence].
    + destruct (ascii_dec c d); [congruence|reflexivity].
Qed.

Lemma prefix_same_length (a b p : string) :
  prefix a p = true -> prefix b p = true ->
  String.length a = String.length b -> a = b.
Proof.
  revert b p; induction a as [|c a IH]; intros b p Ha Hb Hl.
  - destruct b; [reflexivity|discriminate].
  - destruct b as [|d b]; [discriminate|].
    destruct p as [|e p]; [discriminate|].
    simpl in Ha, Hb, Hl.
    destruct (ascii_dec c e); [|discriminate].
    destruct (ascii_dec d e); [|discriminate].
    subst; f_equal; eapply IH; eauto.
Qed.

Lemma drop_app (k : nat) (j t : string) :
  k <= String.length j -> drop k (j ++ t) = drop k j ++ t.
Proof.
  revert j; induction k as [|k IH]; intros j H; [reflexivity|].
  destruct j as [|c j]; simpl in *; [lia|].
  apply IH; lia.
Qed.

Lemma drop_length (k : nat) (s : string) :
  String.length (drop k s) = String.length s - k.
Proof.
  revert s; induction k as [|k IH]; intros s; [simpl; lia|].
  destruct s; simpl; [reflexivity|apply IH].
Qed.

Lemma length_app (a b : string) :
  String.length (a ++ b) = String.length a + String.length b.
Proof. induction a; simpl; congruence. Qed.

Lemma strip_fuel_S (f : nat) (c : ascii) (s' : string) :
  strip_fuel (S f) (String c s') =
    if prefix fence_json_nl (String c s') then strip_fuel f (drop 8 (String c s'))
    else if prefix fence_json (String c s') then strip_fuel f (drop 7 (String c s'))
    else if prefix fence_nl (String c s') then strip_fuel f (drop 4 (String c s'))
    else if prefix fence (String c s') then strip_fuel f (drop 3 (String c s'))
    else String c (strip_fuel f s').
Proof. reflexivity. Qed.

Lemma strip_fuel_stable (n m : nat) (s : string) :
  String.length s <= n -> String.length s <= m ->
  strip_fuel n s = strip_fuel m s.
Proof.
  revert m s; induction n as [|n IH]; intros m s Hn Hm.
  - destruct s; simpl in Hn; [|lia]. destruct m; reflexivity.
  - destruct m as [|m]; [destruct s; simpl in Hm; [reflexivity|lia]|].
    destruct s as [|c s']; [reflexivity|].
    rewrite !strip_fuel_S.
    destruct (prefix fence_json_nl (String c s')) eqn:E1.
    { apply prefix_length in E1. apply IH; rewrite drop_length; simpl in *; lia. }
    destruct (prefix fence_json (String c s')) eqn:E2.
    { apply prefix_length in E2. apply IH; rewrite drop_length; simpl in *; lia. }
    destruct (prefix fence_nl (String c s')) eqn:E3.
    { apply prefix_length in E3. apply IH; rewrite drop_length; simpl in *; lia. }
    destruct (prefix fence (String c s')) eqn:E4.
    { apply prefix_length in E4. apply IH; rewrite drop_length; simpl in *; lia. }
    f_equal; apply IH; simpl in *; lia.
Qed.

(** One step of the global replace. *)
Lemma strip_fences_cons (c : ascii) (s' : string) :
  strip_fences (String c s') =
    let s := String c s' in
    if prefix fence_json_nl s then strip_fences (drop 8 s)
    else if prefix fence_json s then strip_fences (drop 7 s)
    else if prefix fence_nl s then strip_fences (drop 4 s)
    else if prefix fence s then strip_fences (drop 3 s)
    else String c (strip_fences s').
Proof.
  unfold strip_fences at 1; cbn [String.length]; rewrite strip_fuel_S; cbv zeta.
  destruct (prefix fence_json_nl (String c s')) eqn:E1.
  { apply strip_fuel_stable; rewrite drop_length; simpl; lia. }
  destruct (prefix fence_json (String c s')) eqn:E2.
  { apply strip_fuel_stable; rewrite drop_length; simpl; lia. }
  destruct (prefix fence_nl (String c s')) eqn:E3.
  { apply strip_fuel_stable; rewrite drop_length; simpl; lia. }
  destruct (prefix fence (String c s')) eqn:E4.
  { apply strip_fuel_stable; rewrite drop_length; simpl; lia. }
  reflexivity.
Qed.

Lemma strip_fences_step (s : string) :
  s <> EmptyString ->
  strip_fences s =
    if prefix fence_json_nl s then strip_fences (drop 8 s)
    else if prefix fence_json s then strip_fences (drop 7 s)
    else if prefix fence_nl s then strip_fences (drop 4 s)
    else if prefix fence s then strip_fences (drop 3 s)
    else match s with
         | String c s' => String c (strip_fences s')
         | EmptyString => EmptyString
         end.
Proof. destruct s as [|c s']; [congruence|intros _; apply strip_fences_cons]. Qed.

Lemma prefix_cons_neq (a b : ascii) (p s : string) :
  a <> b -> prefix (String a p) (String b s) = false.
Proof. intros H; simpl; destruct (ascii_dec a b); congruence. Qed.

(** The closing fence [\n```] appended to a nonempty payload changes none of
    the four tests at the payload's first position, except for the payload
    [```json] itself, whose last match then absorbs the newline. *)
Lemma prefix_app_fence_nl (p j : string) :
  (forall k, 1 <= k < String.length p -> prefix (drop k p) fence_nl = false) ->
  j <> EmptyString -> prefix p (j ++ fence_nl) = prefix p j.
Proof.
  intros Hk Hj.
  destruct (le_lt_dec (String.length p) (String.length j)) as [L|L].
  - apply prefix_app_long; exact L.
  - rewrite prefix_app_short by exact L.
    rewrite Hk by (destruct j; simpl in *; [congruence|lia]).
    rewrite andb_false_r.
    destruct (prefix p j) eqn:E; [apply prefix_length in E; lia|reflexivity].
Qed.

Ltac drop_cases := let k := fresh "k" in let Hk := fresh "Hk" in intros k Hk; simpl in Hk; do 9 (destruct k as [|k]; [try lia; reflexivity|]); lia.

Lemma drop_fence_nl_ok k :
  1 <= k < String.length fence_nl -> prefix (drop k fence_nl) fence_nl = false.
Proof. revert k; drop_cases. Qed.

Lemma drop_fence_ok k :
  1 <= k < String.length fence -> prefix (drop k fence) fence_nl = false.
Proof. revert k; drop_cases. Qed.

Lemma drop_fence_json_ok k :
  1 <= k < String.length fence_json -> prefix (drop k fence_json) fence_nl = false.
Proof. revert k; drop_cases. Qed.

Lemma drop_fence_json_nl_ok k :
  1 <= k < 7 -> prefix (drop k fence_json_nl) fence_nl = false.
Proof. revert k; intros k Hk; do 9 (destruct k as [|k]; [try lia; reflexivity|]); lia. Qed.

Lemma prefix_json_nl_app (j : string) :
  j <> EmptyString -> j <> fence_json ->
  prefix fence_json_nl (j ++ fence_nl) = prefix fence_json_nl j.
Proof.
  intros Hj Hne.
  destruct (le_lt_dec 8 (String.length j)) as [L|L].
  - apply prefix_app_long; exact L.
  - rewrite prefix_app_short by exact L.
    destruct (prefix fence_json_nl j) eqn:E;
      [apply prefix_length in E; simpl in E; lia|].
    destruct (Nat.eq_dec (String.length j) 7) as [L7|L7].
    + destruct (prefix j fence_json_nl) eqn:P; [|reflexivity].
      exfalso; apply Hne.
      apply (prefix_same_length j fence_json fence_json_nl P); [reflexivity|].
      rewrite L7; reflexivity.
    + rewrite drop_fence_json_nl_ok by (destruct j; simpl in *; [congruence|lia]).
      apply andb_false_r.
Qed.

Lemma strip_fences_app_fence_nl (j : string) :
  strip_fences (j ++ fence_nl) = strip_fences j.
Proof.
  remember (String.length j) as n eqn:Hn; revert j Hn.
  induction n as [n IH] using (well_founded_induction lt_wf); intros j Hn.
  destruct j as [|c r]; [reflexivity|].
  destruct (string_dec (String c r) fence_json) as [E|E]; [rewrite E; reflexivity|].
  assert (Hj : String c r <> EmptyString) by discriminate.
  assert (Hj' : String c r ++ fence_nl <> EmptyString) by discriminate.
  rewrite (strip_fences_step _ Hj'), (strip_fences_step _ Hj).
  rewrite (prefix_json_nl_app _ Hj E).
  rewrite (prefix_app_fence_nl fence_json _ drop_fence_json_ok Hj).
  rewrite (prefix_app_fence_nl fence_nl _ drop_fence_nl_ok Hj).
  rewrite (prefix_app_fence_nl fence _ drop_fence_ok Hj).
  destruct (prefix fence_json_nl (String c r)) eqn:P1.
  { apply prefix_length in P1; simpl in P1.
    rewrite drop_app by (simpl; lia).
    apply (IH (String.length (drop 8 (String c r)))); [rewrite drop_length; simpl in *; lia|reflexivity]. }
  destruct (prefix fence_json (String c r)) eqn:P2.
  { apply prefix_length in P2; simpl in P2.
    rewrite drop_app by (simpl; lia).
    apply (IH (String.length (drop 7 (String c r)))); [rewrite drop_length; simpl in *; lia|reflexivity]. }
  destruct (prefix fence_nl (String c r)) eqn:P3.
  { apply prefix_length in P3; simpl in P3.
    rewrite drop_app by (simpl; lia).
    apply (IH (String.length (drop 4 (String c r)))); [rewrite drop_length; simpl in *; lia|reflexivity]. }
  destruct (prefix fence (String c r)) eqn:P4.
  { apply prefix_length in P4; simpl in P4.
    rewrite drop_app by (simpl; lia).
    apply (IH (String.length (drop 3 (String c r)))); [rewrite drop_length; simpl in *; lia|reflexivity]. }
  simpl; f_equal; apply (IH (String.length r)); [simpl in Hn; lia|reflexivity].
Qed.

Lemma strip_fences_wrap_json (j : string) :
  strip_fences (wrap_json j) = strip_fences j.
Proof.
  unfold wrap_json.
  assert (H : fence_json_nl ++ j ++ fence_nl <> EmptyString) by discriminate.
  rewrite (strip_fences_step _ H).
  rewrite prefix_app_long by (simpl; lia).
  change (prefix fence_json_nl fence_json_nl) with true; cbv iota beta.
  rewrite drop_app by (simpl; lia).
  apply strip_fences_app_fence_nl.
Qed.

Lemma strip_fences_wrap_plain (j : string) :
  starts_with_backtick j = false ->
  strip_fences (wrap_plain j) = String newline (strip_fences j).
Proof.
  intros Hb; unfold wrap_plain.
  assert (H : fence ++ String newline EmptyString ++ j ++ fence_nl <> EmptyString)
    by discriminate.
  rewrite (strip_fences_step _ H).
  change (fence ++ String newline EmptyString ++ j ++ fence_nl)
    with (String backtick (String backtick (String backtick
           (String newline (j ++ fence_nl))))).
  replace (prefix fence_nl _) with false by reflexivity.
  replace (prefix fence_json_nl _) with false by reflexivity.
  replace (prefix fence_json _) with false by reflexivity.
  replace (prefix fence _) with true by reflexivity.
  change (drop 3 _) with (String newline (j ++ fence_nl)).
  assert (H' : String newline (j ++ fence_nl) <> EmptyString) by discriminate.
  rewrite (strip_fences_step _ H').
  unfold fence_json_nl, fence_json, fence.
  rewrite !prefix_cons_neq by (vm_compute; discriminate).
  unfold fence_nl.
  destruct j as [|c r]; [reflexivity|].
  simpl in Hb.
  assert (Hc : backtick <> c)
    by (intros <-; discriminate Hb).
  replace (prefix (String newline (String backtick (String backtick (String backtick EmptyString))))
            (String newline (String c r ++ String newline (String backtick (String backtick (String backtick EmptyString))))))
    with false
    by (simpl; destruct (ascii_dec newline newline) as [_|N]; [|congruence];
        symmetry; apply prefix_cons_neq; exact Hc).
  f_equal; apply strip_fences_app_fence_nl.
Qed.

(** ** C1: the fence round trip *)

(** Claim C1: for every payload [j] that [JSON.parse] accepts (and, as
    [JSON.parse] does, rejects every text whose first character is a
    backtick), the response parser gives the same result on [j] wrapped in a
    fenced code block, with the [json] tag or without it, as on [j] itself:
    [parse(wrap(j)) = parse(j)]. *)
Theorem parse_response_wrap_roundtrip
    (JSON_parse : string -> string + jsval)
    (JSON_parse_rejects_backtick :
       forall s v, starts_with_backtick s = true -> JSON_parse s <> inr v)
    (j : string) (v : jsval) (Hj : JSON_parse j = inr v) :
  parse_response JSON_parse (wrap_json j) = parse_response JSON_parse j /\
  parse_response JSON_parse (wrap_plain j) = parse_response JSON_parse j.
Proof.
  unfold parse_response, clean_response; split.
  - rewrite strip_fences_wrap_json; reflexivity.
  - rewrite strip_fences_wrap_plain; [reflexivity|].
    destruct (starts_with_backtick j) eqn:B; [|reflexivity].
    exfalso; exact (JSON_parse_rejects_backtick j v B Hj).
Qed.

Lemma parse_response_wrap_roundtrip_witness :
  parse_response sample_JSON_parse (wrap_json "{}") =
    parse_response sample_JSON_parse "{}" /\
  parse_response sample_JSON_parse (wrap_plain "{}") =
    parse_response sample_JSON_parse "{}".
Proof.
  apply (parse_response_wrap_roundtrip sample_JSON_parse) with (v := JObj []).
  - intros s v B; unfold sample_JSON_parse; rewrite B; discriminate.
  - reflexivity.
Defined.

(** ** C5: the missing credential *)

(** Claim C5: when [VITE_GROQ_API_KEY] is absent (or empty), [analyzeContract]
    fails with the configuration error for every contract text, and the only
    event is the call itself: no request reaches the completion endpoint. *)
Theorem analyzeContract_missing_key (P : Platform)
    (Hkey : VITE_GROQ_API_KEY P = None \/ VITE_GROQ_API_KEY P = Some "")
    (contractText : string) (w : World) :
  analyzeContract P contractText w =
    (inl (Error missing_key_message),
     {| app := app w; log := log w ++ [EvAnalyze contractText] |}).
Proof.
  unfold analyzeContract, getGroqClient, catch, bind, emit, throw.
  destruct Hkey as [H|H]; rewrite H; reflexivity.
Qed.

Lemma analyzeContract_missing_key_witness :
  analyzeContract (sample_platform None (Some "{}")) "contract" initial_world =
  (inl (Error missing_key_message),
   {| app := initial_state; log := [] ++ [EvAnalyze "contract"] |}).
Proof. apply analyzeContract_missing_key; left; reflexivity. Defined.

(** ** C6: dispatch of [extractTextFromFile] on the declared MIME type *)

(** Claim C6: [extractTextFromFile] decides on [file.type] alone: plain text is
    what the reader reads (or the read error), DOCX is what the library
    extracts (or the format error when it throws), PDF fails at once with the
    not-supported message and reads nothing, and every other type fails with
    the unsupported-format message and reads nothing. *)
Theorem extractTextFromFile_dispatch (P : Platform) (file : File) (w : World) :
  let read := {| app := app w; log := log w ++ [EvReadFile (name file)] |} in
  (type file = "text/plain" ->
     extractTextFromFile P file w =
       (match FileReader_readAsText P (bytes file) with
        | Some s => inr s
        | None => inl (Error text_read_message)
        end, read)) /\
  (type file = docx_mime ->
     extractTextFromFile P file w =
       (match mammoth_extractRawText P (bytes file) with
        | Some s => inr s
        | None => inl (Error docx_message)
        end, read)) /\
  (type file = "application/pdf" ->
     extractTextFromFile P file w = (inl (Error pdf_message), w)) /\
  (type file <> "text/plain" -> type file <> docx_mime ->
   type file <> "application/pdf" ->
     extractTextFromFile P file w = (inl (Error unsupported_message), w)).
Proof.
  cbv zeta; unfold extractTextFromFile, catch, bind, emit, ret, throw.
  repeat split; intros.
  - rewrite H; cbn -[FileReader_readAsText].
    destruct (FileReader_readAsText P (bytes file)); reflexivity.
  - rewrite H; cbn -[mammoth_extractRawText].
    destruct (mammoth_extractRawText P (bytes file)); reflexivity.
  - rewrite H; reflexivity.
  - apply String.eqb_neq in H, H0, H1; rewrite H1, H0, H; reflexivity.
Qed.

Lemma extractTextFromFile_dispatch_witness :
  extractTextFromFile (sample_platform None None)
    {| name := "contract.pdf"; type := "application/pdf"; bytes := [] |}
    initial_world =
  (inl (Error pdf_message), initial_world).
Proof.
  exact (proj1 (proj2 (proj2 (extractTextFromFile_dispatch
           (sample_platform None None)
           {| name := "contract.pdf"; type := "application/pdf"; bytes := [] |}
           initial_world))) eq_refl).
Defined.

(** ** Lemmas on objects and the normalisation *)

Lemma lookup_app (k : string) (fs gs : list (string * jsval)) :
  lookup k (fs ++ gs) =
    match lookup k fs with Some x => Some x | None => lookup k gs end.
Proof.
  induction fs as [|[k' v'] fs IH]; simpl; [reflexivity|].
  destruct (String.eqb k k'); [reflexivity|exact IH].
Qed.

Lemma lookup_absent (k : string) (fs : list (string * jsval)) :
  existsb (fun '(k', _) => String.eqb k k') fs = false -> lookup k fs = None.
Proof.
  induction fs as [|[k' v'] fs IH]; simpl; [reflexivity|].
  destruct (String.eqb k k'); [discriminate|exact IH].
Qed.

Lemma lookup_set_field_same (k : string) (v : jsval) (fs : list (string * jsval)) :
  lookup k (set_field k v fs) = Some v.
Proof.
  unfold set_field.
  destruct (existsb _ fs) eqn:E.
  - induction fs as [|[k' v'] fs IH]; simpl in *; [discriminate|].
    destruct (String.eqb k k') eqn:E1; simpl; rewrite E1; [reflexivity|].
    apply IH; exact E.
  - rewrite lookup_app, lookup_absent by exact E; simpl.
    rewrite String.eqb_refl; reflexivity.
Qed.

Lemma lookup_set_field_other (k k' : string) (v : jsval) (fs : list (string * jsval)) :
  k' <> k -> lookup k' (set_field k v fs) = lookup k' fs.
Proof.
  intros Hne; unfold set_field.
  destruct (existsb _ fs).
  - induction fs as [|[k1 v1] fs IH]; simpl; [reflexivity|].
    destruct (String.eqb k k1) eqn:E1; simpl.
    + apply String.eqb_eq in E1; subst k1.
      rewrite (proj2 (String.eqb_neq k' k) Hne); exact IH.
    + destruct (String.eqb k' k1); [reflexivity|exact IH].
  - rewrite lookup_app; simpl.
    rewrite (proj2 (String.eqb_neq k' k) Hne).
    destruct (lookup k' fs); reflexivity.
Qed.

Lemma map_index_from_length (f : jsval -> nat -> jsval) (i : nat) (xs : list jsval) :
  length (map_index_from f i xs) = length xs.
Proof. revert i; induction xs; intros i; simpl; [reflexivity|f_equal; apply IHxs]. Qed.

Lemma map_index_from_nth (f : jsval -> nat -> jsval) (i : nat) (xs : list jsval) (k : nat) :
  nth_error (map_index_from f i xs) k =
    option_map (fun x => f x (i + k)) (nth_error xs k).
Proof.
  revert i k; induction xs as [|x xs IH]; intros i k; simpl.
  - destruct k; reflexivity.
  - destruct k as [|k]; simpl.
    + rewrite Nat.add_0_r; reflexivity.
    + rewrite IH; replace (i + S k) with (S i + k) by lia; reflexivity.
Qed.

Lemma get_prop_array (v : jsval) (k : string) (xs : list jsval) :
  get_prop v k = inr (JArr xs) -> exists fs, v = JObj fs /\ lookup k fs = Some (JArr xs).
Proof.
  destruct v as [| | | | | |fs]; simpl; intros H; try discriminate.
  exists fs; split; [reflexivity|].
  destruct (lookup k fs); [congruence|discriminate].
Qed.

(** On an object whose [risks] is an array the normalisation succeeds, and
    this is its result. *)
Lemma normalize_analysis_object (contractText : string)
    (fs : list (string * jsval)) (xs : list jsval) :
  lookup "risks" fs = Some (JArr xs) ->
  normalize_analysis contractText (JObj fs) =
    inr {| risks := map_index_from risk_with_id 0 xs;
           overallScore :=
             match lookup "overallScore" fs with Some x => x | None => JUndefined end;
           totalClauses :=
             match lookup "totalClauses" fs with Some x => x | None => JUndefined end;
           originalText := contractText;
           revisedSections :=
             let rv := match lookup "revisedSections" fs with
                       | Some x => x | None => JUndefined end in
             if truthy rv then rv else JArr [] |}.
Proof. intros H; unfold normalize_analysis; simpl; rewrite H; reflexivity. Qed.

(** ** C3: synthetic identifiers *)

(** Claim C3: for a payload whose [risks] is an array of N entries, the
    normalisation succeeds with exactly N risks, in order; the k-th (counting
    from 0) is an object whose [id] is [risk-(k+1)] whatever the entry holds,
    and whose every other property is the entry's own, unchecked (for an
    object entry, [spread_fields] gives its fields). *)
Theorem normalize_analysis_risk_ids (contractText : string) (analysisData : jsval)
    (entries : list jsval)
    (Hrisks : get_prop analysisData "risks" = inr (JArr entries)) :
  exists r, normalize_analysis contractText analysisData = inr r /\
    length (risks r) = length entries /\
    forall k entry, nth_error entries k = Some entry ->
      exists fs, nth_error (risks r) k = Some (JObj fs) /\
        lookup "id" fs = Some (JStr ("risk-" ++ string_of_nat (k + 1))) /\
        forall key, key <> "id" -> lookup key fs = lookup key (spread_fields entry).
Proof.
  destruct (get_prop_array _ _ _ Hrisks) as [fs [-> Hfs]].
  eexists; split; [apply (normalize_analysis_object _ _ _ Hfs)|]; simpl.
  split; [apply map_index_from_length|].
  intros k entry Hk.
  rewrite map_index_from_nth, Hk; simpl.
  eexists; split; [reflexivity|]; split.
  - apply lookup_set_field_same.
  - intros key Hkey; apply lookup_set_field_other; exact Hkey.
Qed.

Lemma normalize_analysis_risk_ids_witness :
  exists r, normalize_analysis "contract" (JObj [("risks", JArr [sample_risk; JNull])]) = inr r /\
    length (risks r) = length [sample_risk; JNull] /\
    forall k entry, nth_error [sample_risk; JNull] k = Some entry ->
      exists fs, nth_error (risks r) k = Some (JObj fs) /\
        lookup "id" fs = Some (JStr ("risk-" ++ string_of_nat (k + 1))) /\
        forall key, key <> "id" -> lookup key fs = lookup key (spread_fields entry).
Proof. apply normalize_analysis_risk_ids; reflexivity. Defined.

(** The out-of-taxonomy severity [critical] and the entry's own [id] on
    concrete input. *)
Example normalize_analysis_sample :
  normalize_analysis "contract" (JObj [("risks", JArr [sample_risk; JNull])]) =
  inr {| risks := [JObj [("type", JStr "critical"); ("category", JStr "Payment Terms");
                         ("id", JStr "risk-1")];
                   JObj [("id", JStr "risk-2")]];
         overallScore := JUndefined; totalClauses := JUndefined;
         originalText := "contract"; revisedSections := JArr [] |}.
Proof. reflexivity. Qed.

(** ** C7: the default for [revisedSections] *)

(** Claim C7 as stated fails: the payload [{}] has no [revisedSections], yet
    its normalisation fails (with a [TypeError], on [risks.map]). *)
Lemma normalize_analysis_no_revised_counterexample :
  ~ (forall contractText fs,
       lookup "revisedSections" fs = None ->
       exists r, normalize_analysis contractText (JObj fs) = inr r /\
                 revisedSections r = JArr []).
Proof.
  intros H; destruct (H "contract" [] eq_refl) as [r [E _]]; discriminate E.
Qed.

(** Claim C7, amended: for a payload whose [risks] is an array (the payloads
    normalisation accepts), an absent [revisedSections] gives an empty one,
    and an array-valued one is returned as it is. *)
Theorem normalize_analysis_revised_default (contractText : string)
    (fs : list (string * jsval)) (entries : list jsval)
    (Hrisks : lookup "risks" fs = Some (JArr entries)) :
  (lookup "revisedSections" fs = None ->
     exists r, normalize_analysis contractText (JObj fs) = inr r /\
               revisedSections r = JArr []) /\
  (forall sections, lookup "revisedSections" fs = Some (JArr sections) ->
     exists r, normalize_analysis contractText (JObj fs) = inr r /\
               revisedSections r = JArr sections).
Proof.
  rewrite (normalize_analysis_object _ _ _ Hrisks); split.
  - intros H; eexists; split; [reflexivity|]; simpl; rewrite H; reflexivity.
  - intros sections H; eexists; split; [reflexivity|]; simpl; rewrite H; reflexivity.
Qed.

Lemma normalize_analysis_revised_default_witness :
  (lookup "revisedSections" [("risks", JArr [])] = None ->
     exists r, normalize_analysis "contract" (JObj [("risks", JArr [])]) = inr r /\
               revisedSections r = JArr []) /\
  (forall sections, lookup "revisedSections" [("risks", JArr [])] = Some (JArr sections) ->
     exists r, normalize_analysis "contract" (JObj [("risks", JArr [])]) = inr r /\
               revisedSections r = JArr sections).
Proof. apply (normalize_analysis_revised_default "contract" _ []); reflexivity. Defined.

(** ** C8: no validation beyond [JSON.parse] *)

(** Claim C8 as stated fails: [{}] is valid JSON, and its normalisation
    throws a [TypeError] instead of leaving fields undefined. *)
Lemma normalize_analysis_total_counterexample :
  normalize_analysis "contract" (JObj []) =
    inl (TypeError "Cannot read properties of undefined (reading 'map')") /\
  ~ (forall contractText analysisData,
       exists r, normalize_analysis contractText analysisData = inr r).
Proof.
  split; [reflexivity|].
  intros H; destruct (H "contract" (JObj [])) as [r E]; discriminate E.
Qed.

(** Claim C8, amended: normalisation checks nothing but that [risks] is an
    array.  It succeeds exactly on the payloads whose [risks] property is an
    array; there a missing [overallScore] or [totalClauses] is [undefined] in
    the result, not a failure. *)
Theorem normalize_analysis_no_validation (contractText : string) (analysisData : jsval) :
  ((exists r, normalize_analysis contractText analysisData = inr r) <->
   (exists entries, get_prop analysisData "risks" = inr (JArr entries))) /\
  (forall fs entries, analysisData = JObj fs ->
     lookup "risks" fs = Some (JArr entries) ->
     exists r, normalize_analysis contractText analysisData = inr r /\
       (lookup "overallScore" fs = None -> overallScore r = JUndefined) /\
       (lookup "totalClauses" fs = None -> totalClauses r = JUndefined)).
Proof.
  split; [split|].
  - intros [r E]; unfold normalize_analysis in E.
    destruct (get_prop analysisData "risks") as [e|rs] eqn:G; [discriminate|].
    destruct rs; simpl in E; try discriminate.
    eexists; reflexivity.
  - intros [entries G].
    destruct (get_prop_array _ _ _ G) as [fs [-> Hfs]].
    eexists; apply (normalize_analysis_object _ _ _ Hfs).
  - intros fs entries -> Hfs.
    rewrite (normalize_analysis_object _ _ _ Hfs).
    eexists; split; [reflexivity|]; simpl.
    split; intros H; rewrite H; reflexivity.
Qed.

Lemma normalize_analysis_inr (contractText : string) (analysisData : jsval)
    (r : AnalysisResult) :
  normalize_analysis contractText analysisData = inr r ->
  originalText r = contractText /\
  get_prop analysisData "overallScore" = inr (overallScore r) /\
  get_prop analysisData "totalClauses" = inr (totalClauses r).
Proof.
  unfold normalize_analysis; intros E.
  destruct (get_prop analysisData "risks"); [discriminate|].
  destruct (js_map risk_with_id j); [discriminate|].
  destruct (get_prop analysisData "overallScore") eqn:G1; [discriminate|].
  destruct (get_prop analysisData "totalClauses") eqn:G2; [discriminate|].
  destruct (get_prop analysisData "revisedSections"); [discriminate|].
  injection E as <-; simpl; auto.
Qed.

Ltac split_matches H :=
  repeat match type of H with
  | context [match ?x with _ => _ end] =>
      lazymatch x with
      | context [match _ with _ => _ end] => fail
      | _ => let E := fresh "E" in destruct x eqn:E
      end
  end.

(** How a successful [analyzeContract] came about. *)
Lemma analyzeContract_inr (P : Platform) (contractText : string) (w w' : World)
    (r : AnalysisResult) :
  analyzeContract P contractText w = (inr r, w') ->
  exists response analysisData,
    groq_chat_completions_create P (analysis_prompt contractText) = inr (Some response) /\
    parse_response (JSON_parse P) response = inr analysisData /\
    normalize_analysis contractText analysisData = inr r.
Proof.
  unfold analyzeContract, getGroqClient, bind, emit, catch, lift, ret, throw.
  intros H; split_matches H; simpl in *; try discriminate;
  repeat match goal with E : (_, _) = (_, _) |- _ => injection E as ?; subst end;
  try discriminate.
  exists s0, j; auto.
Qed.

(** [analyzeContract] leaves the application state alone and logs its call
    first. *)
Lemma analyzeContract_log (P : Platform) (contractText : string) (w w' : World)
    (o : exn + AnalysisResult) :
  analyzeContract P contractText w = (o, w') ->
  app w' = app w /\ exists evs, log w' = (log w ++ EvAnalyze contractText :: evs)%list.
Proof.
  unfold analyzeContract, getGroqClient, bind, emit, catch, lift, ret, throw.
  intros H; split_matches H; simpl in *;
  repeat match goal with E : (_, _) = (_, _) |- _ => injection E as ?; subst end;
  simpl; (split; [reflexivity|]);
  first [ exists []; reflexivity
        | exists [EvRequest (analysis_prompt contractText)];
          rewrite <- app_assoc; reflexivity ].
Qed.

(** ** C9: the fields copied into the result *)

(** Claim C9: whenever [analyzeContract] returns a result, its [originalText]
    is the contract text it was given, and its [overallScore] and
    [totalClauses] are those properties of the payload parsed from the
    completion. *)
Theorem analyzeContract_result_fields (P : Platform) (contractText : string)
    (w w' : World) (r : AnalysisResult)
    (H : analyzeContract P contractText w = (inr r, w')) :
  originalText r = contractText /\
  exists response analysisData,
    groq_chat_completions_create P (analysis_prompt contractText) = inr (Some response) /\
    parse_response (JSON_parse P) response = inr analysisData /\
    get_prop analysisData "overallScore" = inr (overallScore r) /\
    get_prop analysisData "totalClauses" = inr (totalClauses r).
Proof.
  destruct (analyzeContract_inr _ _ _ _ _ H) as (response & d & Hc & Hp & Hn).
  destruct (normalize_analysis_inr _ _ _ Hn) as (Ho & Hs & Ht).
  split; [exact Ho|].
  exists response, d; auto.
Qed.

Lemma analyzeContract_result_fields_witness :
  let P := sample_platform (Some "gsk_test") (Some sample_reply) in
  let res := {| risks := []; overallScore := JNum 70; totalClauses := JUndefined;
                originalText := "contract"; revisedSections := JArr [] |} in
  let w' := {| app := initial_state;
               log := [EvAnalyze "contract"; EvRequest (analysis_prompt "contract")] |} in
  analyzeContract P "contract" initial_world = (inr res, w') /\
  (originalText res = "contract" /\
   exists response analysisData,
     groq_chat_completions_create P (analysis_prompt "contract") = inr (Some response) /\
     parse_response (JSON_parse P) response = inr analysisData /\
     get_prop analysisData "overallScore" = inr (overallScore res) /\
     get_prop analysisData "totalClauses" = inr (totalClauses res)).
Proof.
  cbv zeta.
  assert (H : analyzeContract (sample_platform (Some "gsk_test") (Some sample_reply))
                "contract" initial_world =
              (inr {| risks := []; overallScore := JNum 70; totalClauses := JUndefined;
                      originalText := "contract"; revisedSections := JArr [] |},
               {| app := initial_state;
                  log := [EvAnalyze "contract"; EvRequest (analysis_prompt "contract")] |}))
    by reflexivity.
  split; [exact H|].
  exact (analyzeContract_result_fields _ _ _ _ _ H).
Defined.

(** ** Lemmas on [handleFileUpload] *)

Lemma length_rev_string (s : string) : String.length (rev_string s) = String.length s.
Proof. induction s; simpl; [reflexivity|rewrite length_app; simpl; lia]. Qed.

Lemma length_trim_start (s : string) : String.length (trim_start s) <= String.length s.
Proof. induction s; simpl; [lia|destruct (is_js_space a); simpl; lia]. Qed.

Lemma length_trim (s : string) : String.length (trim s) <= String.length s.
Proof.
  unfold trim, trim_end.
  rewrite length_rev_string.
  etransitivity; [apply length_trim_start|].
  rewrite length_rev_string; apply length_trim_start.
Qed.

Lemma insufficient_text_iff (s : string) :
  insufficient_text s = Nat.ltb (String.length (trim s)) 100.
Proof.
  unfold insufficient_text.
  destruct s as [|c s']; [reflexivity|reflexivity].
Qed.

Lemma extractTextFromFile_log (P : Platform) (file : File) (w w' : World)
    (o : exn + string) :
  extractTextFromFile P file w = (o, w') ->
  app w' = app w /\
  exists evs, log w' = (log w ++ evs)%list /\
              forall e, In e evs -> exists n, e = EvReadFile n.
Proof.
  unfold extractTextFromFile, catch, bind, emit, ret, throw.
  intros H; split_matches H;
  repeat match goal with E : (_, _) = (_, _) |- _ => injection E as ?; subst end;
  simpl; (split; [reflexivity|]);
  first [ exists []; rewrite app_nil_r; split; [reflexivity|intros e []]
        | exists [EvReadFile (name file)]; split;
          [reflexivity|intros e [<-|[]]; eexists; reflexivity] ].
Qed.

Lemma handleFileUpload_unfold (P : Platform) (file : File) (w : World) :
  handleFileUpload P file w =
    try_finally (catch (upload_try P file) upload_catch)
                (modify_app (setIsAnalyzing false))
                (snd (upload_start file w)).
Proof. reflexivity. Qed.

(** After extraction gave [text]: the guard throws, or [analyzeContract] runs. *)
Lemma upload_try_extracted (P : Platform) (file : File) (w0 w1 : World)
    (text : string) :
  extractTextFromFile P file w0 = (inr text, w1) ->
  let w1' := {| app := setOriginalContractText text (app w1); log := log w1 |} in
  upload_try P file w0 =
    if insufficient_text text
    then (inl (Error insufficient_text_message), w1')
    else match analyzeContract P text w1' with
         | (inl e, w2) => (inl e, w2)
         | (inr r, w2) => (inr tt, {| app := setAnalysisResult (Some r) (app w2);
                                       log := log w2 |})
         end.
Proof.
  intros H; unfold upload_try, bind at 1; rewrite H; cbv zeta.
  unfold bind at 1, modify_app at 1.
  destruct (insufficient_text text); [reflexivity|].
  unfold bind, ret, modify_app.
  destruct (analyzeContract P text _) as [[e|r] w2]; reflexivity.
Qed.

(** The [catch] and [finally] blocks after a thrown [error]. *)
Lemma handleFileUpload_thrown (P : Platform) (file : File) (w w2 : World)
    (error : exn) :
  upload_try P file (snd (upload_start file w)) = (inl error, w2) ->
  handleFileUpload P file w =
    (inr tt,
     {| app := setIsAnalyzing false
                 (setAnalysisResult None
                    (setAnalysisError
                       (Some (match error_message error with
                              | Some m => m
                              | None => generic_analysis_message
                              end)) (app w2)));
        log := log w2 |}).
Proof.
  intros H; rewrite handleFileUpload_unfold.
  unfold try_finally, catch; rewrite H; reflexivity.
Qed.

Lemma analyzeContract_malformed (P : Platform) (text response msg : string)
    (w0 : World)
    (Hkey : exists k, VITE_GROQ_API_KEY P = Some k /\ k <> "")
    (Hresp : groq_chat_completions_create P (analysis_prompt text) = inr (Some response))
    (Hne : response <> "")
    (Hmalformed : parse_response (JSON_parse P) response = inl msg) :
  analyzeContract P text w0 =
    (inl (SyntaxError msg),
     {| app := app w0;
        log := (log w0 ++ [EvAnalyze text]) ++ [EvRequest (analysis_prompt text)] |}).
Proof.
  destruct Hkey as (k & Hk & Hkne).
  unfold analyzeContract, getGroqClient, bind, emit, catch, lift, ret, throw.
  rewrite Hk, (proj2 (String.eqb_neq k "") Hkne); simpl.
  rewrite Hresp, (proj2 (String.eqb_neq response "") Hne), Hmalformed.
  reflexivity.
Qed.

(** ** C2: short texts never reach the Analysis Client *)

(** Claim C2: when the extracted text is shorter than 100 characters,
    [handleFileUpload] stops at the guard: it completes without an uncaught
    exception and with the insufficient-text error shown, and after the
    extraction (which only reads the file) nothing is logged, so
    [analyzeContract] is not called and no request is sent. *)
Theorem handleFileUpload_short_text (P : Platform) (file : File) (w w1 : World)
    (text : string)
    (Hextract : extractTextFromFile P file (snd (upload_start file w)) = (inr text, w1))
    (Hshort : String.length text < 100) :
  exists w2, handleFileUpload P file w = (inr tt, w2) /\
    log w2 = log w1 /\
    (exists evs, log w1 = (log w ++ evs)%list /\
                 forall e, In e evs -> exists n, e = EvReadFile n) /\
    analysisError (app w2) = Some insufficient_text_message /\
    analysisResult (app w2) = None /\
    isAnalyzing (app w2) = false.
Proof.
  assert (Hins : insufficient_text text = true).
  { rewrite insufficient_text_iff; apply Nat.ltb_lt.
    pose proof (length_trim text); lia. }
  pose proof (upload_try_extracted _ _ _ _ _ Hextract) as Ht; cbv zeta in Ht.
  rewrite Hins in Ht.
  rewrite (handleFileUpload_thrown _ _ _ _ _ Ht).
  eexists; split; [reflexivity|].
  destruct (extractTextFromFile_log _ _ _ _ _ Hextract) as [_ [evs [Hl Hev]]].
  simpl; repeat split; auto.
  exists evs; split; [exact Hl|exact Hev].
Qed.

Lemma handleFileUpload_short_text_witness :
  exists w2, handleFileUpload (sample_platform (Some "gsk_test") (Some "{}"))
               short_file initial_world = (inr tt, w2) /\
    log w2 = [EvReadFile "short.txt"] /\
    (exists evs, [EvReadFile "short.txt"] = (log initial_world ++ evs)%list /\
                 forall e, In e evs -> exists n, e = EvReadFile n) /\
    analysisError (app w2) = Some insufficient_text_message /\
    analysisResult (app w2) = None /\
    isAnalyzing (app w2) = false.
Proof.
  apply (handleFileUpload_short_text _ _ _
           {| app := app (snd (upload_start short_file initial_world));
              log := [EvReadFile "short.txt"] |}
           "Payment due within 30 days.").
  - vm_compute; reflexivity.
  - vm_compute; lia.
Defined.

(** ** C4: a malformed response is reported, not thrown *)

(** Claim C4: when the key is configured, the text passes the guard and the
    completion's non-empty content does not parse after fence stripping, the
    parser stage fails with the [SyntaxError] of [JSON.parse], which
    [analyzeContract] throws; [handleFileUpload] catches it, completes without
    an uncaught exception, stores its message as the analysis error, clears
    the result and ends the loading state. *)
Theorem handleFileUpload_malformed_response (P : Platform) (file : File)
    (w w1 : World) (text response msg : string)
    (Hextract : extractTextFromFile P file (snd (upload_start file w)) = (inr text, w1))
    (Hlen : 100 <= String.length (trim text))
    (Hkey : exists k, VITE_GROQ_API_KEY P = Some k /\ k <> "")
    (Hresp : groq_chat_completions_create P (analysis_prompt text) = inr (Some response))
    (Hne : response <> "")
    (Hmalformed : parse_response (JSON_parse P) response = inl msg) :
  (forall w0, fst (analyzeContract P text w0) = inl (SyntaxError msg)) /\
  exists w2, handleFileUpload P file w = (inr tt, w2) /\
    analysisError (app w2) = Some msg /\
    analysisResult (app w2) = None /\
    isAnalyzing (app w2) = false.
Proof.
  split.
  - intros w0; rewrite (analyzeContract_malformed P text response msg w0); auto.
  - assert (Hins : insufficient_text text = false).
    { rewrite insufficient_text_iff; apply Nat.ltb_ge; exact Hlen. }
    pose proof (upload_try_extracted _ _ _ _ _ Hextract) as Ht; cbv zeta in Ht.
    rewrite Hins, (analyzeContract_malformed P text response msg) in Ht by auto.
    rewrite (handleFileUpload_thrown _ _ _ _ _ Ht).
    eexists; split; [reflexivity|]; simpl; auto.
Qed.

Lemma handleFileUpload_malformed_response_witness :
  (forall w0, fst (analyzeContract (sample_platform (Some "gsk_test") (Some malformed_reply))
                     long_contract w0) = inl (SyntaxError "Unexpected token")) /\
  exists w2, handleFileUpload (sample_platform (Some "gsk_test") (Some malformed_reply))
               long_file initial_world = (inr tt, w2) /\
    analysisError (app w2) = Some "Unexpected token" /\
    analysisResult (app w2) = None /\
    isAnalyzing (app w2) = false.
Proof.
  apply (handleFileUpload_malformed_response _ _ _
           {| app := app (snd (upload_start long_file initial_world));
              log := [EvReadFile "contract.txt"] |}
           long_contract malformed_reply).
  - vm_compute; reflexivity.
  - vm_compute; lia.
  - exists "gsk_test"; split; [reflexivity|discriminate].
  - reflexivity.
  - discriminate.
  - vm_compute; reflexivity.
Defined.

(** ** C10: the guard reads the trimmed text, strictly below 100 *)

(** Claim C10: with the extracted [text], [analyzeContract] is called (its
    call is the next event after extraction) when the trimmed text has at
    least 100 characters, and the pipeline aborts with the insufficient-text
    error, logging nothing more, when the trimmed text has fewer, whatever the
    raw length. *)
Theorem handleFileUpload_guard_trimmed (P : Platform) (file : File) (w w1 : World)
    (text : string)
    (Hextract : extractTextFromFile P file (snd (upload_start file w)) = (inr text, w1)) :
  (100 <= String.length (trim text) ->
     exists evs, log (snd (handleFileUpload P file w)) =
                 (log w1 ++ EvAnalyze text :: evs)%list) /\
  (String.length (trim text) < 100 ->
     exists w2, handleFileUpload P file w = (inr tt, w2) /\
       log w2 = log w1 /\
       analysisError (app w2) = Some insufficient_text_message).
Proof.
  pose proof (upload_try_extracted _ _ _ _ _ Hextract) as Ht; cbv zeta in Ht.
  rewrite insufficient_text_iff in Ht; split; intros Hlen.
  - rewrite (proj2 (Nat.ltb_ge _ _) Hlen) in Ht.
    destruct (analyzeContract P text _) as [o w2] eqn:Ha.
    destruct (analyzeContract_log _ _ _ _ _ Ha) as [_ [evs Hl]]; simpl in Hl.
    exists evs; rewrite handleFileUpload_unfold; unfold try_finally, catch, upload_catch, bind, modify_app.
    rewrite Ht; destruct o; simpl; exact Hl.
  - rewrite (proj2 (Nat.ltb_lt _ _) Hlen) in Ht.
    rewrite (handleFileUpload_thrown _ _ _ _ _ Ht).
    eexists; split; [reflexivity|]; split; reflexivity.
Qed.

Lemma handleFileUpload_guard_trimmed_witness :
  (exists evs, log (snd (handleFileUpload (sample_platform None None) file_100 initial_world)) =
               ([EvReadFile "a.txt"] ++ EvAnalyze (repeat_char 100 "a"%char) :: evs)%list) /\
  (exists w2, handleFileUpload (sample_platform None None) file_99 initial_world = (inr tt, w2) /\
     log w2 = [EvReadFile "b.txt"] /\
     analysisError (app w2) = Some insufficient_text_message).
Proof.
  split.
  - refine (proj1 (handleFileUpload_guard_trimmed (sample_platform None None) file_100
             initial_world
             {| app := app (snd (upload_start file_100 initial_world));
                log := [EvReadFile "a.txt"] |}
             (repeat_char 100 "a"%char) _) _).
    + vm_compute; reflexivity.
    + vm_compute; lia.
  - refine (proj2 (handleFileUpload_guard_trimmed (sample_platform None None) file_99
             initial_world
             {| app := app (snd (upload_start file_99 initial_world));
                log := [EvReadFile "b.txt"] |}
             (" " ++ repeat_char 99 "a"%char ++ " ") _) _).
    + vm_compute; reflexivity.
    + vm_compute; lia.
Defined.

Lemma normalize_analysis_no_validation_witness :
  exists r, normalize_analysis "contract" (JObj [("risks", JArr [])]) = inr r /\
    (lookup "overallScore" [("risks", JArr [])] = None -> overallScore r = JUndefined) /\
    (lookup "totalClauses" [("risks", JArr [])] = None -> totalClauses r = JUndefined).
Proof.
  exact (proj2 (normalize_analysis_no_validation "contract" (JObj [("risks", JArr [])]))
           _ [] eq_refl eq_refl).
Defined.

(** ** Lemmas on strings, the catalogue and the query parser *)

Lemma string_app_nil_r (s : string) : s ++ "" = s.
Proof. induction s as [|c s IH]; simpl; [reflexivity|rewrite IH; reflexivity]. Qed.

Lemma string_app_assoc (a b c : string) : (a ++ b) ++ c = a ++ b ++ c.
Proof. induction a as [|x a IH]; simpl; [reflexivity|rewrite IH; reflexivity]. Qed.

Lemma to_int_not_nil (z : Z) :
  z <> 0%Z -> Z.to_int z <> Decimal.Pos Decimal.Nil /\ Z.to_int z <> Decimal.Neg Decimal.Nil.
Proof.
  intros Hz; split; intros E; apply Hz; rewrite <- (DecimalZ.of_to z), E; reflexivity.
Qed.

Lemma find_product_by_id_none (productId : string) :
  (forall p, In p StripeConfig.stripeProducts -> StripeConfig.id p <> productId) ->
  find_product_by_id productId = None.
Proof.
  intros H; unfold find_product_by_id.
  destruct (find _ _) as [p|] eqn:E; [|reflexivity].
  apply find_some in E as [Hin Heq]; apply String.eqb_eq in Heq.
  exfalso; exact (H p Hin Heq).
Qed.

Lemma find_product_by_id_in (p : StripeConfig.StripeProduct) :
  In p StripeConfig.stripeProducts -> find_product_by_id (StripeConfig.id p) = Some p.
Proof. intros [<-|[<-|[]]]; reflexivity. Qed.

Lemma url_plain_cons (c : ascii) (s : string) :
  url_plain (String c s) =
    negb (Ascii.eqb c "&"%char || Ascii.eqb c "+"%char || Ascii.eqb c "%"%char)
    && url_plain s.
Proof. reflexivity. Qed.

Lemma url_plain_split (s : string) :
  url_plain s = true -> split_on "&"%char s = [s].
Proof.
  induction s as [|c s IH]; [reflexivity|].
  rewrite url_plain_cons; intros H; apply andb_prop in H as [H1 H2].
  cbn [split_on].
  destruct (Ascii.eqb c "&"%char); [discriminate|].
  rewrite IH by exact H2; reflexivity.
Qed.

Lemma url_plain_decode (s : string) :
  url_plain s = true -> form_decode s = s.
Proof.
  unfold form_decode.
  induction s as [|c s IH]; [reflexivity|].
  rewrite url_plain_cons; intros H; apply andb_prop in H as [H1 H2].
  cbn [string_map percent_decode].
  destruct (Ascii.eqb c "&"%char); [discriminate|].
  destruct (Ascii.eqb c "+"%char); [discriminate|].
  destruct (Ascii.eqb c "%"%char) eqn:E; [discriminate|].
  rewrite IH by exact H2; reflexivity.
Qed.

Lemma success_query_params (productId : string) :
  url_plain productId = true ->
  URLSearchParams ("?view=success&plan=" ++ productId) =
    [("view", "success"); ("plan", productId)].
Proof.
  intros H; unfold URLSearchParams, urlencoded_parse; simpl.
  rewrite (url_plain_split productId H); simpl.
  rewrite (url_plain_decode productId H); reflexivity.
Qed.

Lemma is_ascii_alnum_underscore : is_ascii_alnum "_"%char = false.
Proof. reflexivity. Qed.

Lemma safe_file_name_cons (c : ascii) (s : string) :
  safe_file_name (String c s) =
    String (if is_ascii_alnum c then c else "_"%char) (safe_file_name s).
Proof. reflexivity. Qed.

(** ** Lemmas on the risk summary *)

Lemma risk_with_id_type (entry : jsval) (index : nat) :
  get_prop (risk_with_id entry index) "type" = inr (entry_type entry).
Proof.
  unfold risk_with_id, entry_type; simpl.
  rewrite lookup_set_field_other by discriminate; reflexivity.
Qed.

Lemma count_risk_type_map (t : string) (i : nat) (entries : list jsval) :
  count_risk_type t (map_index_from risk_with_id i entries) =
    inr (length (filter (fun e => js_strict_eq_str (entry_type e) t) entries)).
Proof.
  revert i; induction entries as [|e entries IH]; intros i; [reflexivity|].
  cbn [map_index_from count_risk_type].
  rewrite risk_with_id_type, IH; cbn [filter].
  destruct (js_strict_eq_str (entry_type e) t); reflexivity.
Qed.

Lemma normalize_analysis_risks (contractText : string) (analysisData : jsval)
    (entries : list jsval) (r : AnalysisResult) :
  get_prop analysisData "risks" = inr (JArr entries) ->
  normalize_analysis contractText analysisData = inr r ->
  risks r = map_index_from risk_with_id 0 entries.
Proof.
  intros Hrisks Hr.
  destruct (get_prop_array _ _ _ Hrisks) as (fs & -> & Hl).
  rewrite (normalize_analysis_object contractText fs entries Hl) in Hr.
  injection Hr as <-; reflexivity.
Qed.

(** ** Pricing *)









(** The query of the success URL built at checkout reads back through
    [URLSearchParams]: [view] is [success], so [App] opens the success view,
    and [plan] is the product id, so [SuccessPage] names the product, for any
    id without [&], [+] or [%]. *)
Theorem success_url_roundtrip (productId : string) (currentView : view)
    (Hplain : url_plain productId = true) :
  let search := "?view=success&plan=" ++ productId in
  params_get (URLSearchParams search) "view" = Some "success" /\
  params_get (URLSearchParams search) "plan" = Some productId /\
  app_url_view_effect search currentView = Success /\
  (forall p, In p StripeConfig.stripeProducts -> StripeConfig.id p = productId ->
     successPage_purchasedProduct search None = Some (StripeConfig.name p)).
Proof.
  cbv zeta; unfold app_url_view_effect, successPage_purchasedProduct.
  rewrite (success_query_params productId Hplain); simpl.
  split; [reflexivity|]; split; [reflexivity|]; split; [reflexivity|].
  intros p Hin <-.
  rewrite (find_product_by_id_in p Hin).
  destruct Hin as [<-|[<-|[]]]; reflexivity.
Qed.

Lemma success_url_roundtrip_witness :
  app_url_view_effect ("?view=success&plan=" ++ "prod_Sdz8PGwuqtqf8P") Pricing = Success /\
  successPage_purchasedProduct ("?view=success&plan=" ++ "prod_Sdz8PGwuqtqf8P") None =
    Some "Pay Per Check".
Proof.
  destruct (success_url_roundtrip "prod_Sdz8PGwuqtqf8P" Pricing ltac:(reflexivity))
    as (_ & _ & Hv & Hp).
  split; [exact Hv|].
  apply (Hp _ (or_introl eq_refl) eq_refl).
Defined.

(** ** Exports *)

(** The file-name part of an export name has the length of the uploaded
    file's name and only ASCII letters, digits and [_]; the names it leaves
    unchanged are exactly those made of these characters, so applying it
    twice changes nothing more. *)
Theorem safe_file_name_spec (s : string) :
  String.length (safe_file_name s) = String.length s /\
  string_forallb (fun c => is_ascii_alnum c || Ascii.eqb c "_"%char) (safe_file_name s) = true /\
  (safe_file_name s = s <->
     string_forallb (fun c => is_ascii_alnum c || Ascii.eqb c "_"%char) s = true) /\
  safe_file_name (safe_file_name s) = safe_file_name s.
Proof.
  assert (Hfix : forall t, safe_file_name t = t <->
            string_forallb (fun c => is_ascii_alnum c || Ascii.eqb c "_"%char) t = true).
  { induction t as [|c t IH]; [split; reflexivity|].
    rewrite safe_file_name_cons; cbn [string_forallb].
    destruct (is_ascii_alnum c) eqn:Ha; simpl.
    - split; intros H.
      + injection H as H; apply IH; exact H.
      + rewrite (proj2 IH H); reflexivity.
    - split; intros H.
      + injection H as Hc H; rewrite <- Hc; simpl; apply IH; exact H.
      + apply andb_prop in H as [Hc H]; apply Ascii.eqb_eq in Hc; subst c.
        rewrite (proj2 IH H); reflexivity. }
  assert (Hsafe : forall t, string_forallb
            (fun c => is_ascii_alnum c || Ascii.eqb c "_"%char) (safe_file_name t) = true).
  { induction t as [|c t IH]; [reflexivity|].
    rewrite safe_file_name_cons; cbn [string_forallb].
    rewrite IH, andb_true_r.
    destruct (is_ascii_alnum c) eqn:Ha; simpl; [rewrite Ha; reflexivity|reflexivity]. }
  split; [|split; [apply Hsafe|split; [apply Hfix|apply Hfix, Hsafe]]].
  induction s as [|c s IH]; simpl; [reflexivity|rewrite IH; reflexivity].
Qed.


(** ** The risk summary of the analysis page *)

(** For a normalised result, the number of [type]-[t] risks the analysis
    page counts (the high and medium tiles) is computed without an exception
    and equals the number of payload entries whose own [type] is the string
    [t]: the synthetic ids change no count. *)
Theorem analysis_page_risk_counts (contractText : string) (analysisData : jsval)
    (entries : list jsval) (r : AnalysisResult) (t : string)
    (Hrisks : get_prop analysisData "risks" = inr (JArr entries))
    (Hr : normalize_analysis contractText analysisData = inr r) :
  count_risk_type t (risks r) =
    inr (length (filter (fun e => js_strict_eq_str (entry_type e) t) entries)).
Proof.
  rewrite (normalize_analysis_risks _ _ _ _ Hrisks Hr); apply count_risk_type_map.
Qed.

Lemma analysis_page_risk_counts_witness :
  count_risk_type "high"
    (risks {| risks := map_index_from risk_with_id 0
                         [JObj [("type", JStr "high")]; JObj [("type", JStr "critical")];
                          JObj [("type", JStr "high")]];
              overallScore := JUndefined; totalClauses := JUndefined;
              originalText := "c"; revisedSections := JArr [] |}) = inr 2.
Proof.
  exact (analysis_page_risk_counts "c"
           (JObj [("risks", JArr [JObj [("type", JStr "high")];
                                 JObj [("type", JStr "critical")];
                                 JObj [("type", JStr "high")]])])
           [JObj [("type", JStr "high")]; JObj [("type", JStr "critical")];
            JObj [("type", JStr "high")]]
           _ "high" eq_refl eq_refl).
Defined.

(** The badge colour of the k-th risk of a normalised result is the colour
    of the k-th payload entry's own [type], and it is [undefined] exactly
    when that type is not one of the strings [high], [medium], [low]. *)
Theorem analysis_page_risk_colors (contractText : string) (analysisData : jsval)
    (entries : list jsval) (r : AnalysisResult) (k : nat) (entry : jsval)
    (Hrisks : get_prop analysisData "risks" = inr (JArr entries))
    (Hr : normalize_analysis contractText analysisData = inr r)
    (Hk : nth_error entries k = Some entry) :
  exists risk, nth_error (risks r) k = Some risk /\
    risk_badge_color risk = inr (getRiskColor (entry_type entry)) /\
    (getRiskColor (entry_type entry) = None <->
       ~ In (entry_type entry) [JStr "high"; JStr "medium"; JStr "low"]).
Proof.
  rewrite (normalize_analysis_risks _ _ _ _ Hrisks Hr).
  exists (risk_with_id entry k); split.
  - rewrite map_index_from_nth, Hk; reflexivity.
  - split; [unfold risk_badge_color; rewrite risk_with_id_type; reflexivity|].
    unfold getRiskColor, js_strict_eq_str.
    destruct (entry_type entry) as [| | | |s| |];
      try (split; [intros _ [H|[H|[H|[]]]]; discriminate|reflexivity]).
    destruct (String.eqb_spec s "high") as [->|H1].
    { split; [discriminate|intros H; exfalso; apply H; left; reflexivity]. }
    destruct (String.eqb_spec s "medium") as [->|H2].
    { split; [discriminate|intros H; exfalso; apply H; right; left; reflexivity]. }
    destruct (String.eqb_spec s "low") as [->|H3].
    { split; [discriminate|intros H; exfalso; apply H; right; right; left; reflexivity]. }
    split; [|reflexivity].
    intros _ [H|[H|[H|[]]]]; injection H; auto.
Qed.

Lemma analysis_page_risk_colors_witness :
  exists risk,
    nth_error (map_index_from risk_with_id 0 [JObj [("type", JStr "critical")]]) 0 = Some risk /\
    risk_badge_color risk = inr None.
Proof.
  destruct (analysis_page_risk_colors "c" (JObj [("risks", JArr [JObj [("type", JStr "critical")]])])
              [JObj [("type", JStr "critical")]]
              {| risks := map_index_from risk_with_id 0 [JObj [("type", JStr "critical")]];
                 overallScore := JUndefined; totalClauses := JUndefined;
                 originalText := "c"; revisedSections := JArr [] |}
              0 (JObj [("type", JStr "critical")]) eq_refl eq_refl eq_refl)
    as (risk & Hn & Hc & _).
  exists risk; split; [exact Hn|exact Hc].
Defined.

(** ** Subscriptions *)



(** ** More lemmas on the upload pipeline *)

Lemma analyzeContract_log_exact (P : Platform) (contractText : string) (w w' : World)
    (o : exn + AnalysisResult) :
  analyzeContract P contractText w = (o, w') ->
  app w' = app w /\
  (log w' = (log w ++ [EvAnalyze contractText])%list \/
   log w' = (log w ++ [EvAnalyze contractText; EvRequest (analysis_prompt contractText)])%list).
Proof.
  unfold analyzeContract, getGroqClient, bind, emit, catch, lift, ret, throw.
  intros H; split_matches H; simpl in *;
  repeat match goal with E : (_, _) = (_, _) |- _ => injection E as ?; subst end;
  simpl; (split; [reflexivity|]);
  first [ left; reflexivity | right; rewrite <- app_assoc; reflexivity ].
Qed.

Lemma analyzeContract_error_message (P : Platform) (contractText : string)
    (w w' : World) (e : exn) :
  analyzeContract P contractText w = (inl e, w') -> exists m, error_message e = Some m.
Proof.
  unfold analyzeContract, getGroqClient, bind, emit, catch, lift, ret, throw.
  intros H; split_matches H; simpl in *;
  repeat match goal with E : (_, _) = (_, _) |- _ => injection E as ?; subst end;
  try discriminate; eexists; reflexivity.
Qed.

Lemma extractTextFromFile_exact (P : Platform) (file : File) (w w' : World)
    (o : exn + string) :
  extractTextFromFile P file w = (o, w') ->
  app w' = app w /\
  match o with
  | inr _ => log w' = (log w ++ [EvReadFile (name file)])%list
  | inl e => (exists m, e = Error m) /\
             (log w' = log w \/ log w' = (log w ++ [EvReadFile (name file)])%list)
  end.
Proof.
  unfold extractTextFromFile, catch, bind, emit, ret, throw.
  intros H; split_matches H;
  repeat match goal with E : (_, _) = (_, _) |- _ => injection E as ?; subst end;
  simpl; (split; [reflexivity|]);
  first [ reflexivity
        | split; [eexists; reflexivity|]; first [left; reflexivity|right; reflexivity] ].
Qed.

Lemma upload_try_facts (P : Platform) (file : File) (w w' : World) (o : exn + unit) :
  upload_try P file w = (o, w') ->
  currentView (app w') = currentView (app w) /\
  uploadedFile (app w') = uploadedFile (app w) /\
  uploadedFileName (app w') = uploadedFileName (app w) /\
  isAnalyzing (app w') = isAnalyzing (app w) /\
  analysisError (app w') = analysisError (app w) /\
  (exists text n, log w' = (log w ++ firstn n [EvReadFile (name file); EvAnalyze text;
                                                 EvRequest (analysis_prompt text)])%list) /\
  match o with
  | inr _ => exists r, analysisResult (app w') = Some r /\
                       originalText r = originalContractText (app w')
  | inl e => exists m, error_message e = Some m
  end.
Proof.
  intros H.
  destruct (extractTextFromFile P file w) as [[e|text] w1] eqn:Ex;
    pose proof (extractTextFromFile_exact _ _ _ _ _ Ex) as [Happ Hlog].
  - unfold upload_try, bind at 1 in H; rewrite Ex in H.
    injection H as <- <-; rewrite Happ.
    destruct Hlog as [[m ->] Hlog].
    repeat (split; [reflexivity|]); split; [|eexists; reflexivity].
    exists "".
    destruct Hlog as [->| ->]; [exists 0; simpl; rewrite app_nil_r|exists 1]; reflexivity.
  - rewrite (upload_try_extracted P file w w1 text Ex) in H.
    destruct (insufficient_text text).
    + injection H as <- <-; simpl; rewrite Happ.
      repeat (split; [reflexivity|]); split; [|eexists; reflexivity].
      exists text, 1; exact Hlog.
    + destruct (analyzeContract P text _) as [[e|r] w2] eqn:Ea;
        pose proof (analyzeContract_log_exact _ _ _ _ _ Ea) as [Happ2 Hlog2];
        simpl in Happ2, Hlog2.
      * injection H as <- <-; rewrite Happ2; simpl; rewrite Happ.
        repeat (split; [reflexivity|]); split.
        -- exists text; rewrite Hlog in Hlog2.
           destruct Hlog2 as [->| ->]; [exists 2|exists 3]; rewrite <- app_assoc; reflexivity.
        -- exact (analyzeContract_error_message _ _ _ _ _ Ea).
      * injection H as <- <-; simpl; rewrite Happ2; simpl; rewrite Happ.
        repeat (split; [reflexivity|]); split.
        -- exists text; rewrite Hlog in Hlog2.
           destruct Hlog2 as [->| ->]; [exists 2|exists 3]; rewrite <- app_assoc; reflexivity.
        -- exists r; split; [reflexivity|].
           destruct (analyzeContract_inr _ _ _ _ _ Ea) as (response & d & _ & _ & Hn).
           exact (proj1 (normalize_analysis_inr _ _ _ Hn)).
Qed.

Lemma prefix_cons_same (a : ascii) (p s : string) :
  prefix (String a p) (String a s) = prefix p s.
Proof. simpl; destruct (ascii_dec a a); [reflexivity|contradiction]. Qed.

Lemma strip_fences_no_backtick (s : string) :
  string_forallb (fun c => negb (Ascii.eqb c backtick)) s = true -> strip_fences s = s.
Proof.
  induction s as [|c s IH]; [reflexivity|].
  cbn [string_forallb]; intros H; apply andb_prop in H as [Hc Hs].
  assert (Hcb : backtick <> c).
  { intros E; subst c; rewrite Ascii.eqb_refl in Hc; discriminate. }
  assert (Hnext : forall p, prefix (String backtick p) s = false).
  { intros p; destruct s as [|d s']; [reflexivity|].
    apply prefix_cons_neq; intros E; subst d.
    cbn [string_forallb] in Hs; rewrite Ascii.eqb_refl in Hs; discriminate. }
  assert (Hnl : prefix fence_nl (String c s) = false).
  { unfold fence_nl; destruct (ascii_dec newline c) as [<-|Hn].
    - rewrite prefix_cons_same; apply Hnext.
    - apply prefix_cons_neq; exact Hn. }
  rewrite strip_fences_cons; cbv zeta.
  rewrite Hnl.
  unfold fence_json_nl, fence_json, fence.
  rewrite !(prefix_cons_neq backtick c) by exact Hcb.
  rewrite IH by exact Hs; reflexivity.
Qed.

(** ** The upload pipeline *)

(** [handleFileUpload] never lets an exception escape.  Afterwards the
    analysis view is shown for the uploaded file, the analysing flag is off,
    and exactly one of two outcomes holds: no error and a result whose
    original text is the stored contract text, or an error message and no
    result. *)
Theorem handleFileUpload_outcome (P : Platform) (file : File) (w : World) :
  exists w', handleFileUpload P file w = (inr tt, w') /\
    isAnalyzing (app w') = false /\ currentView (app w') = Analysis /\
    uploadedFile (app w') = Some file /\ uploadedFileName (app w') = name file /\
    ((analysisError (app w') = None /\
      exists r, analysisResult (app w') = Some r /\
                originalText r = originalContractText (app w')) \/
     (exists m, analysisError (app w') = Some m /\ analysisResult (app w') = None)).
Proof.
  rewrite handleFileUpload_unfold.
  destruct (upload_try P file (snd (upload_start file w))) as [o w2] eqn:U.
  destruct (upload_try_facts _ _ _ _ _ U) as (Hv & Hf & Hn & _ & He & _ & Ho).
  unfold try_finally, catch; rewrite U.
  destruct o as [e|[]].
  - simpl in *.
    eexists; split; [reflexivity|]; simpl.
    rewrite Hv, Hf, Hn.
    repeat (split; [reflexivity|]).
    right; eexists; split; reflexivity.
  - eexists; split; [reflexivity|]; simpl in *.
    rewrite Hv, Hf, Hn.
    repeat (split; [reflexivity|]).
    left; split; [exact He|exact Ho].
Qed.


(** When the text cannot be extracted (a PDF, an unsupported type, a file
    that cannot be read), the upload shows the extractor's [Error] message,
    stores no result, keeps the contract text of the previous upload, and
    neither calls [analyzeContract] nor sends a request. *)
Theorem handleFileUpload_extraction_error (P : Platform) (file : File) (w w1 : World)
    (e : exn)
    (Hextract : extractTextFromFile P file (snd (upload_start file w)) = (inl e, w1)) :
  exists m w', e = Error m /\ handleFileUpload P file w = (inr tt, w') /\
    analysisError (app w') = Some m /\ analysisResult (app w') = None /\
    originalContractText (app w') = originalContractText (app w) /\
    log w' = log w1 /\
    (log w1 = log w \/ log w1 = (log w ++ [EvReadFile (name file)])%list).
Proof.
  destruct (extractTextFromFile_exact _ _ _ _ _ Hextract) as [Happ [[m ->] Hlog]].
  assert (U : upload_try P file (snd (upload_start file w)) = (inl (Error m), w1)).
  { unfold upload_try, bind at 1; rewrite Hextract; reflexivity. }
  rewrite (handleFileUpload_thrown P file w w1 (Error m) U).
  eexists m, _; split; [reflexivity|]; split; [reflexivity|]; simpl.
  rewrite Happ; repeat (split; [reflexivity|]); exact Hlog.
Qed.

Lemma handleFileUpload_extraction_error_witness :
  exists m w', Error pdf_message = Error m /\
    handleFileUpload (sample_platform (Some "gsk_test") None) pdf_file initial_world
      = (inr tt, w') /\
    analysisError (app w') = Some m /\ analysisResult (app w') = None /\
    originalContractText (app w') = originalContractText (app initial_world) /\
    log w' = log (snd (upload_start pdf_file initial_world)) /\
    (log (snd (upload_start pdf_file initial_world)) = log initial_world \/
     log (snd (upload_start pdf_file initial_world)) =
       (log initial_world ++ [EvReadFile (name pdf_file)])%list).
Proof.
  apply (handleFileUpload_extraction_error (sample_platform (Some "gsk_test") None)
           pdf_file initial_world (snd (upload_start pdf_file initial_world))
           (Error pdf_message)).
  reflexivity.
Defined.



(** Every failure inside the upload's [try] block is an [Error] instance, so
    the message shown is the thrown error's own message: the fallback
    [An error occurred during analysis] is never substituted. *)
Theorem handleFileUpload_error_message (P : Platform) (file : File) (w w2 : World)
    (e : exn)
    (Hthrown : upload_try P file (snd (upload_start file w)) = (inl e, w2)) :
  exists m, error_message e = Some m /\
    analysisError (app (snd (handleFileUpload P file w))) = Some m.
Proof.
  destruct (upload_try_facts _ _ _ _ _ Hthrown) as (_ & _ & _ & _ & _ & _ & m & Hm).
  exists m; split; [exact Hm|].
  rewrite (handleFileUpload_thrown P file w w2 e Hthrown); simpl.
  rewrite Hm; reflexivity.
Qed.

Lemma handleFileUpload_error_message_witness :
  exists m, error_message (Error insufficient_text_message) = Some m /\
    analysisError (app (snd (handleFileUpload (sample_platform None None) file_99
                               initial_world))) = Some m.
Proof.
  apply (handleFileUpload_error_message (sample_platform None None) file_99 initial_world
           (snd (upload_try (sample_platform None None) file_99
                   (snd (upload_start file_99 initial_world))))).
  vm_compute; reflexivity.
Defined.

(** A response with no backtick has nothing to strip: the text handed to
    [JSON.parse] is the response trimmed. *)
Theorem clean_response_no_backtick (response : string)
    (H : string_forallb (fun c => negb (Ascii.eqb c backtick)) response = true) :
  clean_response response = trim response.
Proof. unfold clean_response; rewrite strip_fences_no_backtick by exact H; reflexivity. Qed.

Lemma clean_response_no_backtick_witness :
  clean_response (" " ++ dq "{~risks~: []}" ++ String newline EmptyString) =
    trim (" " ++ dq "{~risks~: []}" ++ String newline EmptyString).
Proof. apply clean_response_no_backtick; reflexivity. Defined.
